(** * Image-Converter: a shallow embedding of [app.py]

    The Flask application converts an uploaded raster image into JPEG, PNG,
    SVG, PDF or DOCX.  The development follows the source top-down:
    Python string helpers, [allowed_file], the [ImageConverter] class, and
    the request handlers threaded through an explicit file-system state.

    Third-party libraries (Pillow codecs, svgwrite, reportlab, python-docx
    serialisers) are not part of the program: the objects the program hands
    to them are modelled structurally, and their byte-level behaviour is a
    parameter ([Env]).  Python floats are rationals under a rounding
    operator [fl]; [Double.fl64] is the rounding of IEEE 754 doubles. *)

From Stdlib Require Import Floats.
From Stdlib Require Import ZArith QArith Qround Qabs Qpower Lia Lqa String Ascii List.
From Stdlib Require Strings.Byte.
From stdpp Require Import gmap strings list.

Local Open Scope string_scope.
Local Open Scope Z_scope.

(** ** Python values *)

Module Py.

(** Exceptions that the program raises, catches or lets escape. *)
Inductive exn :=
| UnidentifiedImageError (msg : string)
| OSError (msg : string)
| ValueError (msg : string)
| FileNotFoundError (msg : string)
| ZeroDivisionError
| RequestEntityTooLarge.

(** [str(e)], as used by the f-strings of the handlers. *)
Definition str (e : exn) : string :=
  match e with
  | UnidentifiedImageError m | OSError m | ValueError m
  | FileNotFoundError m => m
  | ZeroDivisionError => "float division by zero"
  | RequestEntityTooLarge => "413 Request Entity Too Large"
  end.

Inductive result (A : Type) :=
| Ok (a : A)
| Raise (e : exn).
Arguments Ok {A} a.
Arguments Raise {A} e.

Definition bind {A B} (r : result A) (k : A -> result B) : result B :=
  match r with
  | Ok a => k a
  | Raise e => Raise e
  end.

(** Strings are texts of ASCII characters: file names and format names.
    [is_ascii] marks them; on other bytes the case mappings below leave
    the text as it is, whereas Python maps a few letters outside ASCII
    onto ASCII ones. *)
Definition is_ascii (s : string) : bool :=
  forallb (fun c => (nat_of_ascii c <? 128)%nat) (list_ascii_of_string s).

(** [str.lower] and [str.upper] on the ASCII range. *)
Definition lower_ascii (c : ascii) : ascii :=
  let n := nat_of_ascii c in
  if ((65 <=? n) && (n <=? 90))%nat then ascii_of_nat (n + 32) else c.

Definition upper_ascii (c : ascii) : ascii :=
  let n := nat_of_ascii c in
  if ((97 <=? n) && (n <=? 122))%nat then ascii_of_nat (n - 32) else c.

Fixpoint lower (s : string) : string :=
  match s with
  | EmptyString => EmptyString
  | String c s' => String (lower_ascii c) (lower s')
  end.

Fixpoint upper (s : string) : string :=
  match s with
  | EmptyString => EmptyString
  | String c s' => String (upper_ascii c) (upper s')
  end.

(** ['.' in s] *)
Fixpoint contains_dot (s : string) : bool :=
  match s with
  | EmptyString => false
  | String c s' => Ascii.eqb c "."%char || contains_dot s'
  end.

(** [s.rsplit('.', 1)]: split at the last dot.  The result is the pair
    (text before the last dot, [Some] text after it), or [(s, None)] when
    [s] has no dot, in which case Python returns the one-element list. *)
Fixpoint rsplit_dot (s : string) : string * option string :=
  match s with
  | EmptyString => (EmptyString, None)
  | String c s' =>
      match rsplit_dot s' with
      | (h, Some t) => (String c h, Some t)
      | (h, None) =>
          if Ascii.eqb c "."%char then (EmptyString, Some h)
          else (String c h, None)
      end
  end.

(** [x in xs] for a collection of strings. *)
Definition mem (x : string) (xs : list string) : bool :=
  existsb (String.eqb x) xs.

(** Truthiness of a string: [not s] is true exactly for the empty one. *)
Definition truthy (s : string) : bool :=
  match s with EmptyString => false | _ => true end.

End Py.

Import Py.

#[global] Instance result_ret : MRet result := @Ok.
#[global] Instance result_bind : MBind result :=
  fun A B k r => Py.bind r k.

(** ** Module-level configuration (lines 17-27) *)

Definition MAX_CONTENT_LENGTH : Z := 16 * 1024 * 1024.
Definition UPLOAD_FOLDER : string := "uploads".
Definition OUTPUT_FOLDER : string := "outputs".

Definition ALLOWED_EXTENSIONS : list string :=
  ["png"; "jpg"; "jpeg"; "gif"; "bmp"; "tiff"; "webp"].

(** [allowed_file] (lines 29-31). *)
Definition allowed_file (filename : string) : bool :=
  contains_dot filename &&
  match snd (rsplit_dot filename) with
  | Some ext => mem (lower ext) ALLOWED_EXTENSIONS
  | None => false
  end.

(** ** Pillow images, as far as the program touches them *)

Module PIL.

(** A pixel is the tuple of its band values, as [getpixel] returns it. *)
Abbreviation pixel := (list Z).

Record Image := mkImage {
  format : option string;         (* container it was decoded from *)
  mode : string;
  size : Z * Z;
  data : list pixel;              (* row-major, [width * height] pixels *)
  palette : list pixel            (* RGB entries, used by mode "P" *)
}.

(** [len(im.getbands())] *)
Definition bands (m : string) : nat :=
  if mem m ["RGBA"; "CMYK"; "RGBX"; "RGBa"] then 4
  else if mem m ["RGB"; "YCbCr"; "LAB"; "HSV"] then 3
  else if mem m ["LA"; "PA"; "La"] then 2
  else 1.

(** A decoded image has positive dimensions, one pixel per position and
    one value per band. *)
Definition wf (im : Image) : Prop :=
  0 < (size im).1 /\ 0 < (size im).2 /\
  length (data im) = Z.to_nat ((size im).1 * (size im).2) /\
  Forall (fun px => length px = bands (mode im)) (data im).

(** [Image.new(mode, size, color)] *)
Definition new (m : string) (sz : Z * Z) (color : pixel) : Image :=
  {| format := None; mode := m; size := sz;
     data := replicate (Z.to_nat (fst sz * snd sz)) color;
     palette := [] |}.

(** [im.split()[-1]]: the last band as an image of mode "L". *)
Definition split_last (im : Image) : Image :=
  {| format := None; mode := "L"; size := size im;
     data := map (fun px => [List.last px 0]) (data im);
     palette := [] |}.

(** The colour bands that [paste] copies into an "RGB" image: a palette
    image is converted through its palette, an "RGBA" image shares the
    layout of "RGB" and gives its first three bands. *)
Definition rgb_of (im : Image) (px : pixel) : pixel :=
  if String.eqb (mode im) "P" then
    nth (Z.to_nat (hd 0 px)) (palette im) [0; 0; 0]
  else firstn 3 px.

(** Pillow's 8-bit blend: [DIV255(in1 * (255 - mask) + in2 * mask)]. *)
Definition DIV255 (a : Z) : Z :=
  let tmp := a + 128 in
  Z.shiftr (Z.shiftr tmp 8 + tmp) 8.

Definition BLEND8 (mask in1 in2 : Z) : Z :=
  DIV255 (in1 * (255 - mask) + in2 * mask).

Definition blend_pixel (m : pixel) (dst src : pixel) : pixel :=
  zip_with (BLEND8 (hd 255 m)) dst src.

(** [self.paste(im, mask=mask)] with the default box [(0, 0)]: the pasted
    image must cover exactly the region, else Pillow raises. *)
Definition paste (self im : Image) (mask : option Image) : result Image :=
  if negb (bool_decide (size self = size im)) then
    Raise (ValueError "images do not match")
  else
    let src := map (rgb_of im) (data im) in
    match mask with
    | None =>
        Ok {| format := format self; mode := mode self; size := size self;
              data := src; palette := palette self |}
    | Some m =>
        if negb (bool_decide (size m = size im)) then
          Raise (ValueError "images do not match")
        else
          Ok {| format := format self; mode := mode self;
                size := size self;
                data := zip_with (fun mp ds => blend_pixel mp ds.1 ds.2)
                          (data m) (zip (data self) src);
                palette := palette self |}
    end.

(** What [Image.save(fp, format, **params)] hands to the encoder. *)
Record save_call := mkSave {
  sc_image : Image;
  sc_format : string;
  sc_quality : option Z
}.

End PIL.

Import PIL.

(** ** Objects built for the other libraries *)

Abbreviation bytes := (list Init.Byte.byte).

Module base64.

Definition alphabet : string :=
  "ABCDEFGHIJKLMNOPQRSTUVWXYZabcdefghijklmnopqrstuvwxyz0123456789+/".

(** The character of a 6-bit value. *)
Definition digit (n : Z) : ascii :=
  match String.get (Z.to_nat n) alphabet with
  | Some c => c
  | None => "="%char
  end.

(** The 6-bit value of a character of the alphabet. *)
Definition value (c : ascii) : option Z :=
  let n := Z.of_nat (nat_of_ascii c) in
  if (65 <=? n) && (n <=? 90) then Some (n - 65)
  else if (97 <=? n) && (n <=? 122) then Some (n - 71)
  else if (48 <=? n) && (n <=? 57) then Some (n + 4)
  else if n =? 43 then Some 62
  else if n =? 47 then Some 63
  else None.

Definition u8 (b : Init.Byte.byte) : Z := Z.of_N (Strings.Byte.to_N b).

Definition byte_of (z : Z) : Init.Byte.byte :=
  default Init.Byte.x00 (Strings.Byte.of_N (Z.to_N z)).

(** [base64.b64encode(bs).decode()]: three bytes make a 24-bit group that
    is written as four 6-bit digits; a last group of one or two bytes is
    filled up with zero bits and closed with "=" signs. *)
Fixpoint b64encode (bs : bytes) : string :=
  match bs with
  | [] => ""
  | [a] =>
      let n := u8 a * 65536 in
      String (digit (n / 262144))
        (String (digit (n / 4096 mod 64)) "==")
  | [a; b] =>
      let n := u8 a * 65536 + u8 b * 256 in
      String (digit (n / 262144))
        (String (digit (n / 4096 mod 64))
           (String (digit (n / 64 mod 64)) "="))
  | a :: b :: c :: rest =>
      let n := u8 a * 65536 + u8 b * 256 + u8 c in
      String (digit (n / 262144))
        (String (digit (n / 4096 mod 64))
           (String (digit (n / 64 mod 64))
              (String (digit (n mod 64)) (b64encode rest))))
  end.

(** [base64.b64decode] on padded input. *)
Fixpoint b64decode (s : string) : option bytes :=
  match s with
  | EmptyString => Some []
  | String c0 (String c1 (String c2 (String c3 rest))) =>
      v0 ← value c0;
      v1 ← value c1;
      if Ascii.eqb c2 "=" then
        if Ascii.eqb c3 "=" && String.eqb rest "" then
          Some [byte_of ((v0 * 64 + v1) / 16)]
        else None
      else
        v2 ← value c2;
        if Ascii.eqb c3 "=" then
          if String.eqb rest "" then
            let n := v0 * 4096 + v1 * 64 + v2 in
            Some [byte_of (n / 1024); byte_of (n / 4 mod 256)]
          else None
        else
          v3 ← value c3;
          tl ← b64decode rest;
          let n := v0 * 262144 + v1 * 4096 + v2 * 64 + v3 in
          Some (byte_of (n / 65536) :: byte_of (n / 256 mod 256)
                  :: byte_of (n mod 256) :: tl)
  | _ => None
  end.

End base64.

Module svgwrite.

(** [dwg.image(href, insert, size)] *)
Record image_element := mkImageElement {
  href : string;
  insert : Z * Z;
  el_size : Z * Z
}.

(** The children of the root element: the [<defs/>] container that every
    drawing is created with, and the images added to it. *)
Inductive element :=
| Defs
| ImageElement (e : image_element).

(** A drawing: its file name, its size and the children of its root. *)
Record Drawing := mkDrawing {
  filename : string;
  dwg_size : Z * Z;
  elements : list element
}.

(** [svgwrite.Drawing(filename, size)]: the root holds an empty [<defs/>]. *)
Definition new (name : string) (sz : Z * Z) : Drawing :=
  {| filename := name; dwg_size := sz; elements := [Defs] |}.

(** [dwg.add(element)] *)
Definition add (dwg : Drawing) (e : element) : Drawing :=
  {| filename := filename dwg; dwg_size := dwg_size dwg;
     elements := elements dwg ++ [e] |}.

(** The [<image>] elements of a drawing, in document order. *)
Definition images (dwg : Drawing) : list image_element :=
  omap (fun e => match e with ImageElement i => Some i | Defs => None end)
       (elements dwg).

End svgwrite.

Module reportlab.

(** [reportlab.lib.pagesizes.letter = (8.5 * inch, 11 * inch)], inch = 72. *)
Definition letter : Q * Q := (612 # 1, 792 # 1)%Q.

Inductive op :=
| InlineImage (im : Image) (x y width height : Q).

(** [canvas.Canvas(filename, pagesize)]: finished pages and the operators
    of the page being drawn. *)
Record Canvas := mkCanvas {
  filename : string;
  pagesize : Q * Q;
  pages : list (list op);
  code : list op
}.

Definition drawInlineImage (c : Canvas) (im : Image) (x y w h : Q) : Canvas :=
  {| filename := filename c; pagesize := pagesize c; pages := pages c;
     code := code c ++ [InlineImage im x y w h] |}.

(** [save] first ends the current page when something was drawn on it. *)
Definition showPage (c : Canvas) : Canvas :=
  {| filename := filename c; pagesize := pagesize c;
     pages := pages c ++ [code c]; code := [] |}.

Definition finished (c : Canvas) : Canvas :=
  match code c with
  | [] => c
  | _ => showPage c
  end.

End reportlab.

Module docx.

(** Lengths are whole English Metric Units, 914400 to the inch. *)
Definition EMUS_PER_INCH : Z := 914400.

Inductive inline :=
| Picture (blob : bytes) (width height : Z).

Inductive block :=
| Heading (text : string) (level : Z)
| Paragraph (runs : list (list inline)).

Record Document := mkDocument { body : list block }.

Definition add_heading (d : Document) (text : string) (level : Z) : Document :=
  {| body := body d ++ [Heading text level] |}.

(** [doc.add_paragraph().add_run().add_picture(stream, width, height)] *)
Definition add_picture_paragraph (d : Document) (blob : bytes) (w h : Z)
  : Document :=
  {| body := body d ++ [Paragraph [[Picture blob w h]]] |}.

End docx.

(** ** The environment of the program

    What the libraries compute from the objects above is outside the
    repository.  [Image_open] is Pillow's [Image.open] on the bytes of a
    file or stream; the pixel data, which Pillow reads when the image is
    first used, is taken to load.  [encode] is the encoder that
    [Image.save] selects by format.  reportlab and python-docx stamp the
    document with the clock reading at the time of writing.  [fl] rounds a
    real result to a Python float. *)

Record Env := mkEnv {
  Image_open : bytes -> result Image;
  encode : save_call -> result bytes;
  svg_tostring : svgwrite.Drawing -> bytes;
  pdf_tobytes : Z -> reportlab.Canvas -> bytes;
  docx_tobytes : Z -> docx.Document -> bytes;
  fl : Q -> Q
}.

(** Float arithmetic of the interpreter: the exact result, rounded. *)
Section Floats.
Context (E : Env).

Definition float_of_int (z : Z) : Q := fl E (inject_Z z).
Definition fmul (a b : Q) : Q := fl E (a * b)%Q.
Definition fsub (a b : Q) : Q := fl E (a - b)%Q.
Definition fdiv (a b : Q) : result Q :=
  if Qeq_bool b 0%Q then Raise ZeroDivisionError else Ok (fl E (a / b)%Q).

(** [min(a, b)] returns [a] unless [b < a]. *)
Definition py_min (a b : Q) : Q := if Qle_bool a b then a else b.

(** [int(x)] truncates toward zero. *)
Definition py_int (x : Q) : Z :=
  if Qle_bool 0%Q x then Qfloor x else Qceiling x.

(** The literal [0.8]. *)
Definition lit_0_8 : Q := fl E (4 # 5).

(** [docx.shared.Inches(x) = Length(int(x * 914400))] *)
Definition Inches (x : Q) : Z := py_int (fmul x (inject_Z docx.EMUS_PER_INCH)).
End Floats.

(** ** The file system and the state monad of the handlers *)

Record State := mkState {
  fs : gmap string bytes;       (* regular files by path *)
  free : nat;                   (* bytes left on the device *)
  now : Z                       (* wall-clock time, at a whole second *)
}.

Definition M (A : Type) : Type := State -> result A * State.

#[global] Instance M_ret : MRet M := fun A a s => (Ok a, s).
#[global] Instance M_bind : MBind M := fun A B k m s =>
  match m s with
  | (Ok a, s') => k a s'
  | (Raise e, s') => (Raise e, s')
  end.

Definition raise {A} (e : exn) : M A := fun s => (Raise e, s).

Definition lift {A} (r : result A) : M A := fun s => (r, s).

(** [try: body except Exception as e: handler(e)] *)
Definition try_except {A} (body : M A) (handler : exn -> M A) : M A :=
  fun s =>
    match body s with
    | (Ok a, s') => (Ok a, s')
    | (Raise e, s') => handler e s'
    end.

Definition time_time : M Z := fun s => (Ok (now s), s).

Module os.

(** [os.path.join(a, b)] for a relative folder [a]. *)
Definition path_join (a b : string) : string :=
  match b with
  | String "/" _ => b
  | _ => a ++ "/" ++ b
  end.

(** [os.path.exists(p)].  The state holds the regular files, each under
    its path as written; directories are no part of it and ".." is not
    resolved.  The answer is that of the interpreter when [p] names a
    regular file or nothing at all, as the join of a folder and a
    [plain_name] that is no subfolder does. *)
Definition path_exists (p : string) : M bool :=
  fun s => (Ok (bool_decide (is_Some (fs s !! p))), s).

Definition size_at (s : State) (p : string) : nat :=
  match fs s !! p with
  | Some old => length old
  | None => 0
  end.

(** [open(p, 'wb').write(bs)]: the file is created or truncated, then
    filled as far as the device has room; running out of room raises
    and leaves what was written. *)
Definition write_file (p : string) (bs : bytes) : M unit :=
  fun s =>
    let room := (free s + size_at s p)%nat in
    if (length bs <=? room)%nat then
      (Ok tt, {| fs := <[p := bs]> (fs s);
                 free := (room - length bs)%nat; now := now s |})
    else
      (Raise (OSError "[Errno 28] No space left on device"),
       {| fs := <[p := take room bs]> (fs s); free := 0%nat; now := now s |}).

(** A write through the file descriptor that does not look at the result
    of [write(2)]: what the device has no room for is dropped and no error
    is raised. *)
Definition write_unchecked (p : string) (bs : bytes) : M unit :=
  fun s =>
    let room := (free s + size_at s p)%nat in
    (Ok tt, {| fs := <[p := take room bs]> (fs s);
               free := (room - length (take room bs))%nat; now := now s |}).

Definition read_file (p : string) : M bytes :=
  fun s =>
    match fs s !! p with
    | Some bs => (Ok bs, s)
    | None => (Raise (FileNotFoundError p), s)
    end.

(** [os.remove(p)] *)
Definition remove (p : string) : M unit :=
  fun s =>
    match fs s !! p with
    | Some old =>
        (Ok tt, {| fs := delete p (fs s);
                   free := (free s + length old)%nat; now := now s |})
    | None => (Raise (FileNotFoundError p), s)
    end.

End os.

Section Converter.
Context (E : Env).

(** [Image.open(path)] *)
Definition Image_open_path (p : string) : M Image :=
  bs ← os.read_file p; lift (Image_open E bs).

(** [im.save(path, format, **params)] on an image whose pixel data loads.
    Pillow opens the file for writing, which empties it, before it runs the
    encoder; when the encoder refuses the image, a file that [save] created
    itself is removed again and the error is passed on.  The bytes then go
    to the device.  The JPEG encoder writes through the file descriptor and
    does not notice a full device: the file is cut short and [save]
    returns.  The other encoders write through the file object: on a full
    device the write raises and what was written stays. *)
Definition Image_save (call : save_call) (p : string) : M unit :=
  existed ← os.path_exists p;
  _ ← os.write_file p [];
  bs ← try_except
         (lift (encode E call))
         (fun e => _ ← (if existed : bool then (mret tt : M unit)
                        else os.remove p);
                   raise e);
  if String.eqb (sc_format call) "JPEG" then os.write_unchecked p bs
  else os.write_file p bs.

(** [im.save(buf, format='PNG'); buf.seek(0)] on a fresh [io.BytesIO]. *)
Definition png_buffer (im : Image) : result bytes :=
  encode E {| sc_image := im; sc_format := "PNG"; sc_quality := None |}.

(** *** class ImageConverter *)

Record ImageConverter := mkConverter {
  image_path : string;
  image : Image
}.

(** [__init__] (lines 37-39) *)
Definition ImageConverter_init (path : string) : M ImageConverter :=
  im ← Image_open_path path;
  mret {| image_path := path; image := im |}.

(** The call to [save] that [convert_to_image] (lines 42-49) makes. *)
Definition image_save_call (im : Image) (format_type : string)
  : result save_call :=
  if String.eqb format_type "JPEG" && mem (mode im) ["RGBA"; "P"] then
    let bg := PIL.new "RGB" (size im) [255; 255; 255] in
    bg' ← paste bg im
            (if String.eqb (mode im) "RGBA"
             then Some (split_last im) else None);
    Ok {| sc_image := bg'; sc_format := "JPEG"; sc_quality := Some 95 |}
  else
    Ok {| sc_image := im; sc_format := format_type; sc_quality := None |}.

Definition convert_to_image (self : ImageConverter) (save_path : string)
    (format_type : string) : M unit :=
  call ← lift (image_save_call (image self) format_type);
  Image_save call save_path.

(** The drawing that [convert_to_svg] (lines 52-59) builds from the PNG
    bytes of the image. *)
Definition svg_drawing (im : Image) (save_path : string) (png : bytes)
  : svgwrite.Drawing :=
  let img_b64 := base64.b64encode png in
  let dwg := svgwrite.new save_path (size im) in
  svgwrite.add dwg
    (svgwrite.ImageElement
       (svgwrite.mkImageElement ("data:image/png;base64," ++ img_b64)
          (0, 0) (size im))).

Definition convert_to_svg (self : ImageConverter) (save_path : string)
  : M unit :=
  png ← lift (png_buffer (image self));
  os.write_file save_path (svg_tostring E (svg_drawing (image self) save_path png)).

(** The canvas that [convert_to_pdf] (lines 62-74) draws. *)
Definition pdf_canvas (im : Image) (save_path : string)
  : result reportlab.Canvas :=
  png ← png_buffer im;
  pil_img ← Image_open E png;
  let c := reportlab.mkCanvas save_path reportlab.letter [] [] in
  let page_w := reportlab.letter.1 in
  let page_h := reportlab.letter.2 in
  let img_w := (size pil_img).1 in
  let img_h := (size pil_img).2 in
  rw ← fdiv E page_w (float_of_int E img_w);
  rh ← fdiv E page_h (float_of_int E img_h);
  let scale := fmul E (py_min rw rh) (lit_0_8 E) in
  let w := fmul E (float_of_int E img_w) scale in
  let h := fmul E (float_of_int E img_h) scale in
  x ← fdiv E (fsub E page_w w) 2%Q;
  y ← fdiv E (fsub E page_h h) 2%Q;
  Ok (reportlab.drawInlineImage c pil_img x y w h).

Definition convert_to_pdf (self : ImageConverter) (save_path : string)
  : M unit :=
  c ← lift (pdf_canvas (image self) save_path);
  t ← time_time;
  os.write_file save_path (pdf_tobytes E t (reportlab.finished c)).

(** The document that [convert_to_docx] (lines 77-93) builds. *)
Definition docx_document (im : Image) : result docx.Document :=
  png ← png_buffer im;
  let doc := docx.mkDocument [] in
  let doc := docx.add_heading doc "Converted Image" 0 in
  let img_w := (size im).1 in
  let img_h := (size im).2 in
  let max_w : Q := 6%Q in
  wh ← (if (img_h <? img_w)%Z then
          r ← fdiv E (inject_Z img_h) (inject_Z img_w);
          Ok (Inches E max_w, Inches E (fmul E r max_w))
        else
          r ← fdiv E (inject_Z img_w) (inject_Z img_h);
          Ok (Inches E (fmul E r max_w), Inches E max_w));
  Ok (docx.add_picture_paragraph doc png wh.1 wh.2).

Definition convert_to_docx (self : ImageConverter) (save_path : string)
  : M unit :=
  doc ← lift (docx_document (image self));
  t ← time_time;
  os.write_file save_path (docx_tobytes E t doc).

End Converter.

(** ** Requests and responses *)

#[local] Unset Elimination Schemes.
Inductive json :=
| JNull
| JBool (b : bool)
| JNum (n : Z)
| JStr (s : string)
| JArr (l : list json)
| JObj (l : list (string * json)).
#[local] Set Elimination Schemes.

(** A view's return value: the [jsonify] body and the status code. *)
Definition Response : Type := json * Z.

Definition error_body (msg : string) : json := JObj [("error", JStr msg)].

(** A part of [request.files]. *)
Record FileStorage := mkFile {
  fs_filename : string;
  stream : bytes
}.

(** A POST to [/upload]: the declared body length and the part named
    ['file'], when there is one. *)
Record UploadRequest := mkUpload {
  content_length : Z;
  file_part : option FileStorage
}.

(** A POST to [/convert]: the members ['filename'] and ['format'] of the
    JSON body, each a string or missing ([null] counts as missing).  A
    member of another JSON type is outside the model. *)
Record ConvertRequest := mkConvert {
  req_filename : option string;
  req_format : option string
}.

(** [request.files]: the form is parsed on first access, and Werkzeug
    refuses a body longer than [MAX_CONTENT_LENGTH]. *)
Definition request_files (r : UploadRequest) : M (option FileStorage) :=
  if MAX_CONTENT_LENGTH <? content_length r then raise RequestEntityTooLarge
  else mret (file_part r).

Definition opt_str (o : option string) : json :=
  match o with
  | Some s => JStr s
  | None => JNull
  end.

Section Routes.
Context (E : Env).

(** [upload_file] (lines 102-125); [uid] is [str(uuid.uuid4())]. *)
Definition upload_file (uid : string) (request : UploadRequest) : M Response :=
  files ← request_files request;
  match files with
  | None => mret (error_body "No file part", 400)
  | Some file =>
      if String.eqb (fs_filename file) "" then
        mret (error_body "No file selected", 400)
      else if truthy (fs_filename file) && allowed_file (fs_filename file) then
        let ext := default "" (rsplit_dot (fs_filename file)).2 in
        let filename := uid ++ "." ++ lower ext in
        let path := os.path_join UPLOAD_FOLDER filename in
        _ ← os.write_file path (stream file);
        try_except
          (img ← Image_open_path E path;
           mret (JObj [("filename", JStr filename);
                       ("original_name", JStr (fs_filename file));
                       ("size", JArr [JNum (size img).1; JNum (size img).2]);
                       ("format", opt_str (format img));
                       ("mode", JStr (mode img))], 200))
          (fun e =>
             _ ← os.remove path;
             mret (error_body ("Invalid image: " ++ str e), 400))
      else mret (error_body "Invalid file type", 400)
  end.

(** [convert_image] (lines 128-157) *)
Definition convert_image (request : ConvertRequest) : M Response :=
  let filename := default "" (req_filename request) in
  let fmt := default "" (req_format request) in
  if negb (truthy filename) || negb (truthy fmt) then
    mret (error_body "Missing filename or format", 400)
  else
    let in_path := os.path_join UPLOAD_FOLDER filename in
    found ← os.path_exists in_path;
    if negb found then mret (error_body "File not found", 404)
    else
      let out_name := (rsplit_dot filename).1 ++ "." ++ lower fmt in
      let out_path := os.path_join OUTPUT_FOLDER out_name in
      let done : M Response :=
        mret (JObj [("success", JBool true);
                    ("download_url", JStr ("/download/" ++ out_name));
                    ("filename", JStr out_name)], 200) in
      try_except
        (conv ← ImageConverter_init E in_path;
         let fmt_upper := upper fmt in
         if mem fmt_upper ["JPG"; "JPEG"] then
           _ ← convert_to_image E conv out_path "JPEG"; done
         else if String.eqb fmt_upper "PNG" then
           _ ← convert_to_image E conv out_path "PNG"; done
         else if String.eqb fmt_upper "SVG" then
           _ ← convert_to_svg E conv out_path; done
         else if String.eqb fmt_upper "PDF" then
           _ ← convert_to_pdf E conv out_path; done
         else if String.eqb fmt_upper "DOCX" then
           _ ← convert_to_docx E conv out_path; done
         else mret (error_body "Unsupported format", 400))
        (fun e => mret (error_body ("Conversion failed: " ++ str e), 500)).

(** [handle_large_file] (lines 179-181) *)
Definition handle_large_file (e : exn) : Response :=
  (error_body "File too large. Max 16 MB.", 413).

(** Flask's dispatch of a view: [RequestEntityTooLarge] goes to the
    registered error handler, any other escaping exception becomes the
    generic 500 response. *)
Definition dispatch (view : M Response) (s : State) : Response * State :=
  match view s with
  | (Ok r, s') => (r, s')
  | (Raise RequestEntityTooLarge, s') =>
      (handle_large_file RequestEntityTooLarge, s')
  | (Raise _, s') => (JStr "Internal Server Error", 500, s')
  end.

Definition POST_upload (uid : string) (request : UploadRequest) :=
  dispatch (upload_file uid request).

Definition POST_convert (request : ConvertRequest) :=
  dispatch (convert_image request).

End Routes.

(** ** The specification's wording of the JPEG rule *)

Module Spec.

(** Pillow's colour modes with an alpha band, and those with a palette. *)
Definition has_alpha (m : string) : bool :=
  mem m ["RGBA"; "LA"; "PA"; "RGBa"; "La"].
Definition has_palette (m : string) : bool := mem m ["P"; "PA"].

Definition white : pixel := [255; 255; 255].

(** A pixel of an image with an alpha band whose alpha value is 0. *)
Definition fully_transparent (im : Image) (px : pixel) : Prop :=
  has_alpha (mode im) = true /\ List.last px 255 = 0.

(** "If colorMode includes an alpha channel or palette, first composite
    onto an opaque white background sized to the image dimensions ...
    fully transparent pixels become pure white.  Encode at quality 95." *)
Definition jpeg_rule (im : Image) : Prop :=
  has_alpha (mode im) || has_palette (mode im) = true ->
  exists bg,
    image_save_call im "JPEG" = Ok (mkSave bg "JPEG" (Some 95)) /\
    mode bg = "RGB" /\ size bg = size im /\
    forall (i : nat) px, data im !! i = Some px ->
      fully_transparent im px -> data bg !! i = Some white.

End Spec.

(** ** Sample values *)

Module Sample.

(** A 1x1 greyscale image with alpha, as a PNG of colour type 4 decodes:
    one black, fully transparent pixel. *)
Definition la_image : Image :=
  mkImage (Some "PNG") "LA" (1, 1) [[0; 0]] [].

(** A 2x1 RGBA image: a transparent and an opaque pixel. *)
Definition rgba_image : Image :=
  mkImage (Some "PNG") "RGBA" (2, 1) [[10; 20; 30; 0]; [10; 20; 30; 255]] [].

End Sample.

(** ** Rounding

    Python floats are IEEE 754 doubles: every operation returns the exact
    result rounded to 53 significant bits.  The properties below use no
    more than the standard model of that rounding: a relative error of at
    most [2^-53] on non-negative values, and exactness on integers of at
    most 53 bits scaled by a power of two. *)

Definition u : Q := 1 # (2 ^ 53).

Class Rounding (fl : Q -> Q) : Prop := {
  fl_proper :: Proper (Qeq ==> Qeq) fl;
  fl_lower : forall x : Q, (0 <= x -> x * (1 - u) <= fl x)%Q;
  fl_upper : forall x : Q, (0 <= x -> fl x <= x * (1 + u))%Q;
  fl_dyadic : forall (n : Z) (k : positive),
      Z.abs n <= 2 ^ 53 -> (fl (n # 1) == n # 1)%Q /\ (fl (n # (2 ^ k)) == n # (2 ^ k))%Q
}.

(** ** A small environment for examples

    A codec that stores nothing but the dimensions, serialisers that keep
    the text of the embedded image or the time stamp, exact arithmetic. *)

Module Demo.

Definition byte_of (z : Z) : Init.Byte.byte :=
  default Init.Byte.x00 (Strings.Byte.of_N (Z.to_N (z mod 256))).

Definition toy_encode (c : save_call) : result bytes :=
  Ok [byte_of (size (sc_image c)).1; byte_of (size (sc_image c)).2].

Definition toy_open (bs : bytes) : result Image :=
  match bs with
  | [w; h] =>
      Ok (mkImage (Some "PNG") "RGB" (base64.u8 w, base64.u8 h) [] [])
  | _ => Raise (UnidentifiedImageError "cannot identify image file")
  end.

Definition toy_svg (d : svgwrite.Drawing) : bytes :=
  flat_map (fun e => String.list_byte_of_string (svgwrite.href e))
    (svgwrite.images d).

Definition env : Env :=
  {| Image_open := toy_open;
     encode := toy_encode;
     svg_tostring := toy_svg;
     pdf_tobytes := fun t _ => [byte_of t];
     docx_tobytes := fun t _ => [byte_of t];
     fl := fun x => x |}.

(** The bytes of a text file. *)
Definition text : bytes := String.list_byte_of_string "hello".

(** The stored form of a 200x100 picture under the toy codec. *)
Definition stored : bytes := [byte_of 200; byte_of 100].

(** A decoded 200x100 picture (pixel data left out). *)
Definition picture : Image := mkImage (Some "PNG") "RGB" (200, 100) [] [].

Definition state (files : list (string * bytes)) (room : nat) : State :=
  {| fs := list_to_map files; free := room; now := 0 |}.

End Demo.

(** ** The specification's wording of the format check *)

Module SpecFormat.

(** "one of JPEG, JPG, PNG, SVG, PDF, DOCX (compared case-insensitively)" *)
Definition supported (fmt : string) : bool :=
  mem (upper fmt) ["JPEG"; "JPG"; "PNG"; "SVG"; "PDF"; "DOCX"].

(** "fails with an 'Unsupported format' error result and writes no
    output file" *)
Definition unsupported_rule (E : Env) (request : ConvertRequest) (s : State)
  : Prop :=
  forall fmt, req_format request = Some fmt -> supported fmt = false ->
    POST_convert E request s = (error_body "Unsupported format", 400, s).

End SpecFormat.

(** ** The specification's wording of the picture size *)

Module SpecDocx.

(** "width = 6 inches and height = 6 x (h/w) inches when w > h, otherwise
    height = 6 inches and width = 6 x (w/h) inches", in EMU, the unit of
    the document (914400 to the inch). *)
Definition displayed_size (w h : Z) : Q * Q :=
  if h <? w
  then (6 * 914400, 6 * (inject_Z h / inject_Z w) * 914400)%Q
  else (6 * (inject_Z w / inject_Z h) * 914400, 6 * 914400)%Q.

(** "one top-level heading 'Converted Image' followed by one embedded
    picture whose displayed size is ..." *)
Definition docx_rule (E : Env) (im : Image) : Prop :=
  exists png width height,
    docx_document E im =
      Ok (docx.mkDocument
            [docx.Heading "Converted Image" 0;
             docx.Paragraph [[docx.Picture png width height]]]) /\
    (inject_Z width == (displayed_size (size im).1 (size im).2).1 /\
     inject_Z height == (displayed_size (size im).1 (size im).2).2)%Q.

End SpecDocx.

(** The paths of a conversion request (lines 135-139). *)
Definition in_path_of (filename : string) : string :=
  os.path_join UPLOAD_FOLDER filename.

Definition out_path_of (filename fmt : string) : string :=
  os.path_join OUTPUT_FOLDER ((rsplit_dot filename).1 ++ "." ++ lower fmt).

(** The path under which [upload_file] stores a part (lines 110-111). *)
Definition upload_path_of (uid original : string) : string :=
  os.path_join UPLOAD_FOLDER
    (uid ++ "." ++ lower (default "" (rsplit_dot original).2)).

(** The bytes a conversion writes to its output path: what each branch of
    [convert_image] hands to [write], as a function of the decoded image,
    the output path, the upper-cased format and the time of writing. *)
Definition conversion_output (E : Env) (t : Z) (im : Image)
    (out_path fmt_upper : string) : result bytes :=
  if mem fmt_upper ["JPG"; "JPEG"] then
    call ← image_save_call im "JPEG"; encode E call
  else if String.eqb fmt_upper "PNG" then
    call ← image_save_call im "PNG"; encode E call
  else if String.eqb fmt_upper "SVG" then
    png ← png_buffer E im;
    Ok (svg_tostring E (svg_drawing im out_path png))
  else if String.eqb fmt_upper "PDF" then
    c ← pdf_canvas E im out_path;
    Ok (pdf_tobytes E t (reportlab.finished c))
  else if String.eqb fmt_upper "DOCX" then
    d ← docx_document E im;
    Ok (docx_tobytes E t d)
  else Raise (ValueError "Unsupported format").

(** The body of a successful [/convert] response (line 155). *)
Definition success_body (out_name : string) : json :=
  JObj [("success", JBool true);
        ("download_url", JStr ("/download/" ++ out_name));
        ("filename", JStr out_name)].

(** ** Round to nearest, ties to even, 53 significant bits

    The rounding of IEEE 754 doubles, without the bounds on the exponent
    (no overflow, no subnormal numbers): the values the program handles
    are far from both. *)

Module Double.

(** The power of two [2^e] for an integer exponent. *)
Definition pow2 (e : Z) : Q := (2 ^ e)%Q.

(** [floor(log2 x)] for a positive [x]: the number [e] with
    [2^e <= x < 2^(e+1)]. *)
Definition binade (x : Q) : Z :=
  let e0 := Z.log2 (Qnum x) - Z.log2 (Zpos (Qden x)) in
  if Qle_bool (pow2 e0) x then e0 else e0 - 1.

(** The nearest integer, the even one of two equally near. *)
Definition rne (q : Q) : Z :=
  let f := Qfloor q in
  match (q - inject_Z f ?= 1 # 2)%Q with
  | Lt => f
  | Gt => f + 1
  | Eq => if Z.even f then f else f + 1
  end.

(** The nearest multiple of [2^(e-52)], where [e] is the binade of [|x|]:
    a significand of 53 bits. *)
Definition fl64 (x : Q) : Q :=
  let x := Qred x in
  if Qeq_bool x 0 then 0%Q
  else
    let s := pow2 (binade (Qabs x) - 52) in
    (inject_Z (rne (x / s)) * s)%Q.

End Double.

(** The toy environment with the arithmetic of doubles. *)
Definition double_env : Env :=
  {| Image_open := Image_open Demo.env;
     encode := encode Demo.env;
     svg_tostring := svg_tostring Demo.env;
     pdf_tobytes := pdf_tobytes Demo.env;
     docx_tobytes := docx_tobytes Demo.env;
     fl := Double.fl64 |}.

(** The rational value of a hardware double, to compare [Double.fl64] with
    the arithmetic of the machine. *)
Definition Q_of_float (f : PrimFloat.float) : Q :=
  match FloatOps.Prim2SF f with
  | SpecFloat.S754_finite sign m e =>
      ((if sign then -1 else 1) * inject_Z (Z.pos m) * Double.pow2 e)%Q
  | _ => 0%Q
  end.

(** ** The remaining routes *)

(** What [/download] answers: the file as an attachment, or a plain text
    with a status code. *)
Inductive DownloadResponse :=
| Attachment (body : bytes) (download_name : string)
| Plain (text : string) (status : Z).

(** [download_file] (lines 160-165).  Relative paths are taken from the
    directory of the application, which is also the working directory. *)
Definition download_file (filename : string) : M DownloadResponse :=
  let path := os.path_join OUTPUT_FOLDER filename in
  found ← os.path_exists path;
  if found : bool then
    body ← os.read_file path;
    mret (Attachment body filename)
  else mret (Plain "File not found" 404).

Module Listing.

(** [s] without the prefix [pre], when it starts with it. *)
Fixpoint strip_prefix (pre s : string) : option string :=
  match pre, s with
  | EmptyString, _ => Some s
  | String a pre', String b s' =>
      if Ascii.eqb a b then strip_prefix pre' s' else None
  | String _ _, EmptyString => None
  end.

(** The text before the first "/". *)
Fixpoint first_component (s : string) : string :=
  match s with
  | EmptyString => EmptyString
  | String c s' =>
      if Ascii.eqb c "/" then EmptyString else String c (first_component s')
  end.

(** The entry of [folder] under which the path [p] lies, if any. *)
Definition entry_of (folder p : string) : option string :=
  first_component <$> strip_prefix (folder ++ "/") p.

(** [os.listdir(folder)]: the names of the files and directories directly
    inside [folder], each once. *)
Definition listdir (folder : string) : M (list string) :=
  fun s =>
    (Ok (remove_dups (omap (entry_of folder) (map_to_list (fs s)).*1)),
     s).

(** [os.path.isfile(p)] *)
Definition isfile (p : string) : M bool :=
  fun s => (Ok (bool_decide (is_Some (fs s !! p))), s).

End Listing.

(** [for x in xs: body(x)] *)
Fixpoint for_each {A} (xs : list A) (body : A -> M unit) : M unit :=
  match xs with
  | [] => mret tt
  | x :: xs' => _ ← body x; for_each xs' body
  end.

(** [cleanup_files] (lines 168-176).  [getctime] is [os.path.getctime], the
    time a file was created or last changed, in whole seconds like the
    clock of the state. *)
Definition cleanup_files (getctime : string -> Z) : M Response :=
  now ← time_time;
  _ ← for_each [UPLOAD_FOLDER; OUTPUT_FOLDER] (fun folder =>
         names ← Listing.listdir folder;
         for_each names (fun fname =>
           let fp := os.path_join folder fname in
           is_file ← Listing.isfile fp;
           if (is_file : bool) && (3600 <? now - getctime fp)
           then os.remove fp
           else mret tt));
  mret (JObj [("message", JStr "Cleanup completed")], 200).

(** A file directly inside [folder]: [folder/name] with no further "/". *)
Definition child_of (folder p : string) : bool :=
  match Listing.strip_prefix (folder ++ "/") p with
  | Some rest => String.eqb (Listing.first_component rest) rest
  | None => false
  end.

(** The files that [cleanup_files] is after: directly inside one of the two
    folders and older than an hour at time [t]. *)
Definition expired (getctime : string -> Z) (t : Z) (p : string) : bool :=
  (child_of UPLOAD_FOLDER p || child_of OUTPUT_FOLDER p)
  && (3600 <? t - getctime p).

(** A name without "/". *)
Definition no_slash (name : string) : bool :=
  String.eqb (Listing.first_component name) name.

(** A name with no directory part: not empty, without "/", and neither "."
    nor "..".  Joined to a folder it names an entry of that folder. *)
Definition plain_name (name : string) : bool :=
  no_slash name && negb (String.eqb name "")
  && negb (String.eqb name ".") && negb (String.eqb name "..").

(** [name in os.listdir(folder)] *)
Definition listed (folder name : string) (s : State) : Prop :=
  exists names, Listing.listdir folder s = (Ok names, s) /\ name ∈ names.

(** A computation that changes no file other than [p], and not the clock. *)
Definition touches_only {A} (p : string) (m : M A) : Prop :=
  forall s r s', m s = (r, s') ->
    now s' = now s /\ forall q, q <> p -> fs s' !! q = fs s !! q.

(** A byte of a pixel. *)
Definition is_byte (v : Z) : Prop := 0 <= v <= 255.

(* ===================================================================== *)
(** * Properties *)
(* ===================================================================== *)

(** ** Compositing for JPEG *)

Section Compositing.

Lemma byte_cases (P : Z -> bool) :
  forallb P (map Z.of_nat (seq 0 256)) = true ->
  forall v, 0 <= v <= 255 -> P v = true.
Proof.
  intros Hall v Hv. rewrite forallb_forall in Hall. apply Hall.
  rewrite <- (Z2Nat.id v) by lia. apply in_map, in_seq. lia.
Qed.

Lemma DIV255_mul_255 v : 0 <= v <= 255 -> DIV255 (v * 255) = v.
Proof.
  intros Hv. apply Z.eqb_eq.
  apply (byte_cases (fun v => DIV255 (v * 255) =? v)); [now vm_compute | exact Hv].
Qed.

(** Mask 0 keeps the background, mask 255 copies the pasted value. *)
Lemma BLEND8_0 d s : 0 <= d <= 255 -> BLEND8 0 d s = d.
Proof.
  intros Hd. unfold BLEND8.
  replace (d * (255 - 0) + s * 0) with (d * 255) by lia.
  now apply DIV255_mul_255.
Qed.

Lemma BLEND8_255 d s : 0 <= s <= 255 -> BLEND8 255 d s = s.
Proof.
  intros Hs. unfold BLEND8.
  replace (d * (255 - 255) + s * 255) with (s * 255) by lia.
  now apply DIV255_mul_255.
Qed.

Lemma mem_true_iff x xs : mem x xs = true <-> In x xs.
Proof.
  unfold mem. rewrite existsb_exists. split.
  - intros (y & Hy & Heq). apply String.eqb_eq in Heq. now subst.
  - intros Hin. exists x. split; [exact Hin | apply String.eqb_refl].
Qed.

Lemma lookup_map {A B} (f : A -> B) (l : list A) (i : nat) :
  map f l !! i = f <$> (l !! i).
Proof. exact (list_lookup_fmap f l i). Qed.

Lemma wf_pixel im (i : nat) px :
  wf im -> data im !! i = Some px -> length px = bands (mode im).
Proof.
  intros (_ & _ & _ & Hall) Hi. rewrite Forall_lookup in Hall. eauto.
Qed.

Lemma wf_lookup_lt im (i : nat) px :
  wf im -> data im !! i = Some px ->
  (i < Z.to_nat ((size im).1 * (size im).2))%nat.
Proof.
  intros (_ & _ & Hlen & _) Hi. rewrite <- Hlen. eapply lookup_lt_Some; eauto.
Qed.

(** With mode "RGBA" the save call is the white background blended with
    the image under its own alpha band, at quality 95. *)
Lemma image_save_call_rgba im :
  mode im = "RGBA" ->
  exists bg,
    image_save_call im "JPEG" = Ok (mkSave bg "JPEG" (Some 95)) /\
    mode bg = "RGB" /\ size bg = size im /\
    forall (i : nat) px, wf im -> data im !! i = Some px ->
      data bg !! i =
        Some (blend_pixel [List.last px 0] [255; 255; 255] (firstn 3 px)).
Proof.
  intros Hm. unfold image_save_call. rewrite Hm.
  change ("JPEG" =? "JPEG")%string with true.
  change (mem "RGBA" ["RGBA"; "P"]) with true.
  change ("RGBA" =? "RGBA")%string with true. cbn [andb].
  unfold paste. cbn [size PIL.new split_last].
  rewrite !bool_decide_eq_true_2 by reflexivity. cbn [negb].
  eexists. split; [reflexivity |]. cbn [mode size data PIL.new].
  repeat split.
  intros i px Hwf Hi.
  rewrite lookup_zip_with. cbn [split_last data].
  rewrite lookup_zip_with, !lookup_map, Hi.
  rewrite lookup_replicate_2 by (eapply wf_lookup_lt; eauto).
  unfold rgb_of. rewrite Hm. reflexivity.
Qed.

Lemma image_save_call_palette im :
  mode im = "P" ->
  exists bg,
    image_save_call im "JPEG" = Ok (mkSave bg "JPEG" (Some 95)) /\
    mode bg = "RGB" /\ size bg = size im /\
    forall (i : nat) px, data im !! i = Some px ->
      data bg !! i = Some (nth (Z.to_nat (hd 0 px)) (palette im) [0; 0; 0]).
Proof.
  intros Hm. unfold image_save_call. rewrite Hm.
  change ("JPEG" =? "JPEG")%string with true.
  change (mem "P" ["RGBA"; "P"]) with true.
  change ("P" =? "RGBA")%string with false. cbn [andb].
  unfold paste. cbn [size PIL.new].
  rewrite bool_decide_eq_true_2 by reflexivity. cbn [negb].
  eexists. split; [reflexivity |]. cbn [mode size data PIL.new].
  repeat split.
  intros i px Hi. rewrite lookup_map, Hi. cbn.
  unfold rgb_of. rewrite Hm. reflexivity.
Qed.

End Compositing.

(** X22.  For every decoded image of mode "RGBA" or "P", the two modes
    that line 44 tests for, converting to JPEG pastes the image onto a
    white "RGB" background of the same size and saves that background as
    JPEG at quality 95.  For "RGBA"
    the alpha band is the paste mask: every pixel [r, g, b, a] becomes the
    blend of white and [r, g, b] under [a], so a fully transparent pixel
    becomes (255, 255, 255).  For "P" there is no mask and every pixel
    becomes its palette colour. *)
Theorem jpeg_composites_rgba_and_palette (im : Image) :
  wf im ->
  mem (mode im) ["RGBA"; "P"] = true ->
  exists bg,
    image_save_call im "JPEG" = Ok (mkSave bg "JPEG" (Some 95)) /\
    mode bg = "RGB" /\ size bg = size im /\
    (mode im = "RGBA" ->
       forall (i : nat) px, data im !! i = Some px ->
         exists r g b a,
           px = [r; g; b; a] /\
           data bg !! i =
             Some [BLEND8 a 255 r; BLEND8 a 255 g; BLEND8 a 255 b] /\
           (a = 0 -> data bg !! i = Some Spec.white)) /\
    (mode im = "P" ->
       forall (i : nat) px, data im !! i = Some px ->
         data bg !! i = Some (nth (Z.to_nat (hd 0 px)) (palette im) [0; 0; 0])).
Proof.
  intros Hwf Hmode. apply mem_true_iff in Hmode.
  destruct Hmode as [Hm | [Hm | []]]; symmetry in Hm.
  - destruct (image_save_call_rgba im Hm) as (bg & Hcall & Hbm & Hsz & Hpx).
    exists bg. do 3 (split; [assumption |]). split.
    + intros _ i px Hi.
      pose proof (wf_pixel im i px Hwf Hi) as Hlen. rewrite Hm in Hlen.
      destruct px as [| r [| g [| b [| a [| ? ?]]]]]; try discriminate Hlen.
      exists r, g, b, a. split; [reflexivity |].
      specialize (Hpx i _ Hwf Hi). cbn in Hpx.
      split; [exact Hpx |].
      intros ->. rewrite Hpx. unfold Spec.white.
      now rewrite !BLEND8_0 by lia.
    + intros Hp. rewrite Hm in Hp. discriminate Hp.
  - destruct (image_save_call_palette im Hm) as (bg & Hcall & Hbm & Hsz & Hpx).
    exists bg. do 3 (split; [assumption |]). split.
    + intros HR. rewrite Hm in HR. discriminate HR.
    + intros _. exact Hpx.
Qed.

Lemma jpeg_composites_rgba_and_palette_witness :
  exists bg,
    image_save_call Sample.rgba_image "JPEG" = Ok (mkSave bg "JPEG" (Some 95)) /\
    data bg = [[255; 255; 255]; [10; 20; 30]].
Proof.
  destruct (jpeg_composites_rgba_and_palette Sample.rgba_image) as (bg & Hc & _).
  - unfold wf. cbn. repeat split; try lia. repeat constructor.
  - reflexivity.
  - exists bg. split; [exact Hc |].
    vm_compute in Hc. injection Hc as <-. reflexivity.
Defined.

(** C1: the code at a failing input.  Line 44 tests for the modes "RGBA"
    and "P" only.  A greyscale image with an alpha band (mode "LA", as a
    grey-and-alpha PNG decodes) has an alpha channel, yet it reaches the
    JPEG encoder as it is, neither composited onto white nor with the
    quality setting: the rule of the specification does not hold of it. *)
Lemma jpeg_rule_fails_for_LA :
  wf Sample.la_image /\
  Spec.has_alpha (mode Sample.la_image) = true /\
  image_save_call Sample.la_image "JPEG"
    = Ok (mkSave Sample.la_image "JPEG" None) /\
  ~ Spec.jpeg_rule Sample.la_image.
Proof.
  split; [| split; [| split]].
  - unfold wf. cbn. repeat split; try lia. repeat constructor.
  - reflexivity.
  - reflexivity.
  - intros Hrule. destruct Hrule as (bg & Hcall & _); [reflexivity |].
    vm_compute in Hcall. discriminate Hcall.
Qed.

(** ** Stepping through the state monad *)

Section Steps.

Lemma write_file_ok p bs s :
  (length bs <= free s + os.size_at s p)%nat ->
  os.write_file p bs s =
    (Ok tt, {| fs := <[p := bs]> (fs s);
               free := (free s + os.size_at s p - length bs)%nat;
               now := now s |}).
Proof.
  intros Hroom. unfold os.write_file.
  now rewrite (proj2 (Nat.leb_le _ _) Hroom).
Qed.

Lemma write_file_full p bs s :
  (free s + os.size_at s p < length bs)%nat ->
  os.write_file p bs s =
    (Raise (OSError "[Errno 28] No space left on device"),
     {| fs := <[p := take (free s + os.size_at s p) bs]> (fs s);
        free := 0%nat; now := now s |}).
Proof.
  intros Hroom. unfold os.write_file.
  now rewrite (proj2 (Nat.leb_gt _ _) Hroom).
Qed.

(** Whatever happens, a write touches no other path and not the clock. *)
Lemma write_file_frame p bs s r s' :
  os.write_file p bs s = (r, s') ->
  now s' = now s /\ forall q, q <> p -> fs s' !! q = fs s !! q.
Proof.
  unfold os.write_file. intros H.
  destruct (length bs <=? free s + os.size_at s p)%nat; inversion H; subst; cbn;
    (split; [reflexivity | intros q Hq; now rewrite lookup_insert_ne]).
Qed.

Lemma bind_ok {A B} (m : M A) (k : A -> M B) s a s' :
  m s = (Ok a, s') -> (m ≫= k) s = k a s'.
Proof. intros H. unfold mbind, M_bind. now rewrite H. Qed.

Lemma bind_raise {A B} (m : M A) (k : A -> M B) s e s' :
  m s = (Raise e, s') -> (m ≫= k) s = (Raise e, s').
Proof. intros H. unfold mbind, M_bind. now rewrite H. Qed.

Lemma bind_inv_ok {A B} (m : M A) (k : A -> M B) s b s' :
  (m ≫= k) s = (Ok b, s') ->
  exists a s1, m s = (Ok a, s1) /\ k a s1 = (Ok b, s').
Proof.
  unfold mbind, M_bind. destruct (m s) as [[a | e] s1]; intros H.
  - eauto.
  - discriminate H.
Qed.

End Steps.

(** ** Upload *)

(** C10.  An upload whose body is longer than 16 MB (16 x 1024 x 1024
    bytes) is answered with status 413 and the message
    'File too large. Max 16 MB.', and the file system is left as it was:
    no source file is stored. *)
Theorem upload_too_large (E : Env) (uid : string) (request : UploadRequest)
    (s : State) :
  16 * 1024 * 1024 < content_length request ->
  POST_upload E uid request s =
    (JObj [("error", JStr "File too large. Max 16 MB.")], 413, s).
Proof.
  intros Hbig.
  assert (Hfiles : request_files request s = (Raise RequestEntityTooLarge, s)).
  { unfold request_files. change MAX_CONTENT_LENGTH with (16 * 1024 * 1024).
    now rewrite (proj2 (Z.ltb_lt _ _) Hbig). }
  unfold POST_upload, dispatch, upload_file.
  now rewrite (bind_raise _ _ _ _ _ Hfiles).
Qed.

Lemma upload_too_large_witness :
  POST_upload Demo.env "u" (mkUpload 16777217 None) (Demo.state [] 0) =
    (JObj [("error", JStr "File too large. Max 16 MB.")], 413, Demo.state [] 0).
Proof. apply upload_too_large. cbn. lia. Defined.

Lemma allowed_file_inv filename :
  allowed_file filename = true ->
  truthy filename = true /\ (filename =? "")%string = false /\
  exists ext, (rsplit_dot filename).2 = Some ext.
Proof.
  unfold allowed_file. intros H. apply andb_prop in H as [Hdot Hext].
  destruct filename as [| c rest]; [discriminate Hdot |].
  repeat split.
  destruct (rsplit_dot (String c rest)).2 as [ext |]; [eauto | discriminate Hext].
Qed.



(** ** The writers of the converter *)

Section Writers.
Context (E : Env).

Lemma lift_inv {A} (r : result A) s a s' :
  lift r s = (Ok a, s') -> r = Ok a /\ s' = s.
Proof. unfold lift. intros H. inversion H. auto. Qed.

Lemma write_file_inv_ok p bs s s' :
  os.write_file p bs s = (Ok tt, s') ->
  fs s' = <[p := bs]> (fs s) /\ now s' = now s.
Proof.
  unfold os.write_file.
  destruct (length bs <=? free s + os.size_at s p)%nat; intros H; inversion H.
  auto.
Qed.

Lemma convert_to_pdf_ok conv p s s' :
  convert_to_pdf E conv p s = (Ok tt, s') ->
  exists c,
    pdf_canvas E (image conv) p = Ok c /\
    fs s' = <[p := pdf_tobytes E (now s) (reportlab.finished c)]> (fs s) /\
    now s' = now s.
Proof.
  unfold convert_to_pdf. intros H.
  apply bind_inv_ok in H as (c & s0 & Hc & H).
  apply lift_inv in Hc as [Hc ->].
  apply bind_inv_ok in H as (t & s1 & Ht & H).
  unfold time_time in Ht. inversion Ht; subst t s1; clear Ht.
  apply write_file_inv_ok in H as [Hfs Hnow]. eauto.
Qed.

Lemma convert_to_docx_ok conv p s s' :
  convert_to_docx E conv p s = (Ok tt, s') ->
  exists d,
    docx_document E (image conv) = Ok d /\
    fs s' = <[p := docx_tobytes E (now s) d]> (fs s) /\
    now s' = now s.
Proof.
  unfold convert_to_docx. intros H.
  apply bind_inv_ok in H as (d & s0 & Hd & H).
  apply lift_inv in Hd as [Hd ->].
  apply bind_inv_ok in H as (t & s1 & Ht & H).
  unfold time_time in Ht. inversion Ht; subst t s1; clear Ht.
  apply write_file_inv_ok in H as [Hfs Hnow]. eauto.
Qed.

(** Opening the source reads the file system and leaves it alone. *)
Lemma ImageConverter_init_run path s :
  ImageConverter_init E path s =
    (match fs s !! path with
     | Some src =>
         match Image_open E src with
         | Ok im => Ok (mkConverter path im)
         | Raise e => Raise e
         end
     | None => Raise (FileNotFoundError path)
     end, s).
Proof.
  unfold ImageConverter_init, Image_open_path, os.read_file, lift,
    mbind, M_bind, mret, M_ret.
  destruct (fs s !! path) as [src |]; [| reflexivity].
  destruct (Image_open E src); reflexivity.
Qed.

End Writers.

(** ** Unsupported target formats *)

Section Unsupported.
Context (E : Env).

Lemma unsupported_tests fmt :
  SpecFormat.supported fmt = false ->
  mem (upper fmt) ["JPG"; "JPEG"] = false /\
  (upper fmt =? "PNG")%string = false /\
  (upper fmt =? "SVG")%string = false /\
  (upper fmt =? "PDF")%string = false /\
  (upper fmt =? "DOCX")%string = false.
Proof.
  unfold SpecFormat.supported, mem. cbn [existsb].
  rewrite !orb_false_iff. intros (Hjpeg & Hjpg & Hpng & Hsvg & Hpdf & Hdocx & _).
  rewrite Hjpeg, Hjpg. auto.
Qed.

(** Whatever else the request says, an unsupported format is answered
    with an error status and the state is not touched. *)
Lemma unsupported_no_write request fmt s :
  req_format request = Some fmt ->
  SpecFormat.supported fmt = false ->
  exists r, POST_convert E request s = (r, s) /\ r.2 <> 200.
Proof.
  intros Hfmt Hunsup.
  destruct (unsupported_tests fmt Hunsup) as (T1 & T2 & T3 & T4 & T5).
  unfold POST_convert, dispatch, convert_image. rewrite Hfmt.
  cbn [default from_option id].
  destruct (negb (truthy (default "" (req_filename request))) || negb (truthy fmt)).
  { eexists. split; [reflexivity | discriminate]. }
  unfold mbind at 1, M_bind, os.path_exists.
  destruct (bool_decide _); cbn [negb].
  2:{ eexists. split; [reflexivity | discriminate]. }
  unfold try_except. unfold mbind at 1, M_bind.
  rewrite ImageConverter_init_run.
  destruct (fs s !! _) as [src |].
  2:{ eexists. split; [reflexivity | discriminate]. }
  destruct (Image_open E src) as [im | e].
  2:{ eexists. split; [reflexivity | discriminate]. }
  rewrite T1, T2, T3, T4, T5.
  eexists. split; [reflexivity | discriminate].
Qed.

Lemma unsupported_reached request filename fmt src im s :
  req_filename request = Some filename ->
  req_format request = Some fmt ->
  filename <> "" -> fmt <> "" ->
  fs s !! in_path_of filename = Some src ->
  Image_open E src = Ok im ->
  SpecFormat.supported fmt = false ->
  POST_convert E request s = (error_body "Unsupported format", 400, s).
Proof.
  intros Hname Hfmt Hn Hf Hsrc Him Hunsup.
  destruct (unsupported_tests fmt Hunsup) as (T1 & T2 & T3 & T4 & T5).
  unfold POST_convert, dispatch, convert_image. rewrite Hname, Hfmt.
  cbn [default from_option id].
  destruct filename as [| c1 f]; [contradiction |].
  destruct fmt as [| c2 g]; [contradiction |].
  cbn [truthy negb orb].
  fold (in_path_of (String c1 f)).
  unfold mbind at 1, M_bind, os.path_exists.
  rewrite bool_decide_eq_true_2 by eauto. cbn [negb].
  unfold try_except. unfold mbind at 1, M_bind.
  rewrite ImageConverter_init_run, Hsrc, Him.
  rewrite T1, T2, T3, T4, T5. reflexivity.
Qed.

End Unsupported.

(** C6 (as amended).  A conversion request whose format string, a text of
    ASCII characters, is not one of JPEG, JPG, PNG, SVG, PDF, DOCX
    (case-insensitively) is always answered with an error status and writes
    nothing.  The answer is 'Unsupported format' (400) when the request
    gets as far as the format dispatch: file name and format non-empty, the
    source file present and decodable. *)
Theorem unsupported_format_rejected (E : Env) (request : ConvertRequest)
    (fmt : string) (s : State) :
  req_format request = Some fmt ->
  is_ascii fmt = true ->
  SpecFormat.supported fmt = false ->
  (exists r, POST_convert E request s = (r, s) /\ r.2 <> 200) /\
  (forall filename src im,
      req_filename request = Some filename ->
      filename <> "" -> fmt <> "" ->
      fs s !! in_path_of filename = Some src ->
      Image_open E src = Ok im ->
      POST_convert E request s = (error_body "Unsupported format", 400, s)).
Proof.
  intros Hfmt _ Hunsup. split.
  - now apply unsupported_no_write with (fmt := fmt).
  - intros filename src im Hname Hn Hf Hsrc Him.
    now apply unsupported_reached with filename fmt src im.
Qed.

Lemma unsupported_format_rejected_witness :
  POST_convert Demo.env (mkConvert (Some "a.png") (Some "bmp"))
    (Demo.state [("uploads/a.png", Demo.stored)] 100) =
  (error_body "Unsupported format", 400,
   Demo.state [("uploads/a.png", Demo.stored)] 100).
Proof.
  eapply (unsupported_format_rejected Demo.env
            (mkConvert (Some "a.png") (Some "bmp")) "bmp").
  - reflexivity.
  - reflexivity.
  - reflexivity.
  - reflexivity.
  - discriminate.
  - discriminate.
  - vm_compute. reflexivity.
  - reflexivity.
Defined.

(** C6 (as stated) fails: the source is opened before the format is looked
    at, so an unsupported format together with an undecodable source is
    answered 500 'Conversion failed'; an empty format string is answered
    'Missing filename or format', and a missing source 404. *)
Lemma unsupported_rule_fails :
  let s := Demo.state [("uploads/a.png", Demo.text)] 100 in
  POST_convert Demo.env (mkConvert (Some "a.png") (Some "bmp")) s =
    (error_body "Conversion failed: cannot identify image file", 500, s) /\
  POST_convert Demo.env (mkConvert (Some "a.png") (Some "")) s =
    (error_body "Missing filename or format", 400, s) /\
  POST_convert Demo.env (mkConvert (Some "b.png") (Some "bmp")) s =
    (error_body "File not found", 404, s) /\
  ~ SpecFormat.unsupported_rule Demo.env
      (mkConvert (Some "a.png") (Some "bmp")) s.
Proof.
  cbv zeta. split; [| split; [| split]].
  - vm_compute. reflexivity.
  - vm_compute. reflexivity.
  - vm_compute. reflexivity.
  - intros Hrule. specialize (Hrule "bmp" eq_refl eq_refl).
    vm_compute in Hrule. discriminate Hrule.
Qed.

(** ** Failure during the write *)

(** C7: the code at a failing input.  The source is a valid picture, the
    target is SVG, and the device has room for 10 bytes only.  The write of
    the 26-byte document raises in the middle, the handler of line 156
    answers 500 and removes nothing: the output path, absent before, now
    holds the first 10 bytes. *)
Theorem convert_failure_leaves_partial_output :
  let s := Demo.state [("uploads/a.png", Demo.stored)] 10 in
  let doc := String.list_byte_of_string "data:image/png;base64,yGQ=" in
  exists s',
    POST_convert Demo.env (mkConvert (Some "a.png") (Some "svg")) s =
      (error_body "Conversion failed: [Errno 28] No space left on device",
       500, s') /\
    fs s !! "outputs/a.svg" = None /\
    fs s' !! "outputs/a.svg" = Some (take 10 doc).
Proof.
  cbv zeta. eexists. split; [| split].
  - vm_compute. reflexivity.
  - reflexivity.
  - vm_compute. reflexivity.
Qed.

(** ** Rounded arithmetic *)

Section RoundedArithmetic.
Context (fl : Q -> Q) {R : Rounding fl}.
Local Open Scope Q_scope.

Lemma u_pos : 0 < u.
Proof. reflexivity. Qed.

Lemma fl_nonneg x : 0 <= x -> 0 <= fl x.
Proof.
  intros Hx. apply Qle_trans with (x * (1 - u)); [| now apply fl_lower].
  apply Qmult_le_0_compat; [exact Hx | now vm_compute].
Qed.

Lemma fl_pos x : 0 < x -> 0 < fl x.
Proof.
  intros Hx. apply Qlt_le_trans with (x * (1 - u)).
  - apply Qmult_lt_0_compat; [exact Hx | reflexivity].
  - apply fl_lower. now apply Qlt_le_weak.
Qed.

(** A bound on the argument carries over, up to one rounding. *)
Lemma fl_le x b : 0 <= x -> x <= b -> fl x <= b * (1 + u).
Proof.
  intros Hx Hb. apply Qle_trans with (x * (1 + u)); [now apply fl_upper |].
  apply Qmult_le_compat_r; [exact Hb | now vm_compute].
Qed.

Lemma fl_int (n : Z) : (Z.abs n <= 2 ^ 53)%Z -> fl (inject_Z n) == inject_Z n.
Proof. intros Hn. exact (proj1 (fl_dyadic n 1%positive Hn)). Qed.

End RoundedArithmetic.

Section PageLayout.
Context (fl : Q -> Q) {R : Rounding fl}.
Local Open Scope Q_scope.

Let k : Q := 1 + u.

Lemma k_facts : 0 < k /\ (4 # 5) * (k * k * k * k) <= 1 /\ k * k <= 2.
Proof. now vm_compute. Qed.

Lemma py_min_le_l a b : py_min a b <= a.
Proof.
  unfold py_min. destruct (Qle_bool a b) eqn:Hab; [apply Qle_refl |].
  destruct (Qlt_le_dec b a) as [Hlt | Hle]; [now apply Qlt_le_weak |].
  apply Qle_bool_iff in Hle. congruence.
Qed.

Lemma py_min_le_r a b : py_min a b <= b.
Proof.
  unfold py_min. destruct (Qle_bool a b) eqn:Hab; [| apply Qle_refl].
  now apply Qle_bool_iff.
Qed.

Lemma py_min_nonneg a b : 0 <= a -> 0 <= b -> 0 <= py_min a b.
Proof. unfold py_min. now destruct (Qle_bool a b). Qed.

(** A side [d], scaled by the rounded product of a ratio no larger than
    the rounded [P / d] and the rounded 0.8, stays within [P]. *)
Lemma scaled_side_le (P d m : Q) :
  0 <= P -> 0 < d -> 0 <= m -> m <= fl (P / d) ->
  fl (d * fl (m * fl (4 # 5))) <= P.
Proof.
  intros HP Hd Hm Hmle.
  destruct k_facts as (Hk & Hk4 & _).
  set (q := P / d).
  assert (Hq : 0 <= q).
  { unfold q, Qdiv. apply Qmult_le_0_compat; [exact HP |].
    apply Qlt_le_weak, Qinv_lt_0_compat, Hd. }
  assert (Hdq : d * q == P).
  { unfold q. apply Qmult_div_r. intros H0. rewrite H0 in Hd.
    exact (Qlt_irrefl 0 Hd). }
  assert (Hm' : m <= q * k) by (eapply Qle_trans; [exact Hmle | now apply fl_upper]).
  assert (Hc0 : 0 <= fl (4 # 5)) by (apply fl_nonneg; [exact R | now vm_compute]).
  assert (Hc : fl (4 # 5) <= (4 # 5) * k) by (apply fl_upper; now vm_compute).
  assert (Hmc0 : 0 <= m * fl (4 # 5)) by now apply Qmult_le_0_compat.
  assert (Hmc : m * fl (4 # 5) <= q * k * ((4 # 5) * k)).
  { apply Qle_trans with (q * k * fl (4 # 5)).
    - apply Qmult_le_compat_r; assumption.
    - rewrite !(Qmult_comm (q * k)).
      apply Qmult_le_compat_r; [exact Hc |].
      apply Qmult_le_0_compat; [exact Hq | now apply Qlt_le_weak]. }
  assert (HS0 : 0 <= fl (m * fl (4 # 5))) by (apply fl_nonneg; assumption).
  assert (HS : fl (m * fl (4 # 5)) <= q * k * ((4 # 5) * k) * k)
    by (apply fl_le; assumption).
  assert (HdS0 : 0 <= d * fl (m * fl (4 # 5))).
  { apply Qmult_le_0_compat; [now apply Qlt_le_weak | exact HS0]. }
  assert (HdS : d * fl (m * fl (4 # 5)) <= P * ((4 # 5) * (k * k * k))).
  { apply Qle_trans with (d * (q * k * ((4 # 5) * k) * k)).
    - rewrite !(Qmult_comm d).
      apply Qmult_le_compat_r; [exact HS | now apply Qlt_le_weak].
    - rewrite <- Hdq. apply Qle_lteq. right. ring. }
  apply Qle_trans with (P * ((4 # 5) * (k * k * k)) * k).
  - apply fl_le; assumption.
  - apply Qle_trans with (P * 1); [| rewrite Qmult_1_r; apply Qle_refl].
    rewrite <- Qmult_assoc. rewrite !(Qmult_comm P).
    apply Qmult_le_compat_r; [| exact HP].
    eapply Qle_trans; [| exact Hk4]. apply Qle_lteq. right. ring.
Qed.

(** Centring a span [s] inside [P]: the margin is not negative and margin
    plus span stays inside. *)
Lemma centred_inside (P s : Q) :
  s <= P ->
  0 <= fl (fl (P - s) / 2) /\ fl (fl (P - s) / 2) + s <= P.
Proof.
  intros Hs. destruct k_facts as (Hk & _ & Hk2).
  assert (Hd : 0 <= P - s) by lra.
  assert (HD0 : 0 <= fl (P - s)) by (apply fl_nonneg; assumption).
  assert (HD : fl (P - s) <= (P - s) * k) by now apply fl_upper.
  assert (HH0 : 0 <= fl (P - s) / 2).
  { unfold Qdiv. apply Qmult_le_0_compat; [exact HD0 | now vm_compute]. }
  split; [apply fl_nonneg; assumption |].
  assert (HX : fl (fl (P - s) / 2) <= (P - s) * k / 2 * k).
  { apply fl_le; [exact R | exact HH0 |].
    unfold Qdiv. apply Qmult_le_compat_r; [exact HD | now vm_compute]. }
  assert (Hfin : (P - s) * k / 2 * k <= P - s).
  { assert (He : (P - s) * k / 2 * k == (P - s) * (k * k / 2)) by field.
    rewrite He.
    apply Qle_trans with ((P - s) * 1); [| rewrite Qmult_1_r; apply Qle_refl].
    rewrite !(Qmult_comm (P - s)).
    apply Qmult_le_compat_r; [| exact Hd].
    apply Qle_shift_div_r; [reflexivity |].
    eapply Qle_trans; [exact Hk2 | now vm_compute]. }
  lra.
Qed.

End PageLayout.

(** Exact arithmetic is one model of the rounding laws. *)
Lemma exact_rounding : Rounding (fun x : Q => x).
Proof.
  split.
  - intros x y Hxy. exact Hxy.
  - intros x Hx. apply Qle_trans with (x * 1)%Q.
    + rewrite !(Qmult_comm x). apply Qmult_le_compat_r; [now vm_compute | exact Hx].
    + rewrite Qmult_1_r. apply Qle_refl.
  - intros x Hx. apply Qle_trans with (x * 1)%Q.
    + rewrite Qmult_1_r. apply Qle_refl.
    + rewrite !(Qmult_comm x). apply Qmult_le_compat_r; [now vm_compute | exact Hx].
  - intros n k _. split; apply Qeq_refl.
Qed.

(** ** The double rounding satisfies the rounding laws *)

Section DoubleRounding.
Import Double.
Local Open Scope Q_scope.

Lemma two_neq_0 : ~ 2 == 0.
Proof. discriminate. Qed.

Lemma pow2_pos e : 0 < pow2 e.
Proof. apply Qpower_0_lt. reflexivity. Qed.

Lemma pow2_add a b : pow2 (a + b) == pow2 a * pow2 b.
Proof. apply Qpower_plus, two_neq_0. Qed.

Lemma pow2_succ e : pow2 (e + 1) == 2 * pow2 e.
Proof. rewrite pow2_add. change (pow2 1) with 2. apply Qmult_comm. Qed.

Lemma pow2_Z (a : Z) : (0 <= a)%Z -> inject_Z (2 ^ a) == pow2 a.
Proof. intros Ha. now apply Zpower_Qpower. Qed.

Lemma pow2_le a b : (a <= b)%Z -> pow2 a <= pow2 b.
Proof. intros Hab. apply Qpower_le_compat_l; [exact Hab | discriminate]. Qed.

Lemma pow2_lt_inv a b : pow2 a < pow2 b -> (a < b)%Z.
Proof. intros H. apply (Qpower_lt_compat_l_inv 2); [exact H | reflexivity]. Qed.

(** The binade of a positive number is unique. *)
Lemma binade_unique (x : Q) (e e' : Z) :
  pow2 e <= x -> x < pow2 (e + 1) ->
  pow2 e' <= x -> x < pow2 (e' + 1) -> e = e'.
Proof.
  intros H1 H2 H3 H4.
  assert (e < e' + 1)%Z by (apply pow2_lt_inv; eapply Qle_lt_trans; eauto).
  assert (e' < e + 1)%Z by (apply pow2_lt_inv; eapply Qle_lt_trans; eauto).
  lia.
Qed.

Lemma log2_bounds (n : Z) :
  (0 < n)%Z ->
  pow2 (Z.log2 n) <= inject_Z n /\ inject_Z n < pow2 (Z.log2 n + 1).
Proof.
  intros Hn. destruct (Z.log2_spec n Hn) as [Hlo Hhi].
  pose proof (Z.log2_nonneg n) as Hnn.
  split.
  - rewrite <- pow2_Z by exact Hnn. now rewrite <- Zle_Qle.
  - rewrite <- pow2_Z by lia. rewrite <- Zlt_Qlt.
    replace (Z.log2 n + 1)%Z with (Z.succ (Z.log2 n)) by lia. exact Hhi.
Qed.

Lemma binade_spec (x : Q) :
  0 < x -> pow2 (binade x) <= x /\ x < pow2 (binade x + 1).
Proof.
  intros Hx. destruct x as [n d]. unfold binade. cbn [Qnum Qden].
  assert (Hn : (0 < n)%Z).
  { unfold Qlt in Hx. cbn in Hx. lia. }
  set (a := Z.log2 n). set (b := Z.log2 (Z.pos d)).
  destruct (log2_bounds n Hn) as [Hn1 Hn2]. fold a in Hn1, Hn2.
  destruct (log2_bounds (Z.pos d) eq_refl) as [Hd1 Hd2]. fold b in Hd1, Hd2.
  assert (HD : 0 < inject_Z (Z.pos d)) by reflexivity.
  assert (Hx' : n # d == inject_Z n / inject_Z (Z.pos d)) by apply Qmake_Qdiv.
  assert (Hup : n # d < pow2 (a - b + 1)).
  { rewrite Hx'. apply Qlt_shift_div_r; [exact HD |].
    apply Qlt_le_trans with (pow2 (a + 1)); [exact Hn2 |].
    replace (a + 1)%Z with ((a - b + 1) + b)%Z by lia.
    rewrite pow2_add. rewrite !(Qmult_comm (pow2 (a - b + 1))).
    apply Qmult_le_compat_r; [exact Hd1 | apply Qlt_le_weak, pow2_pos]. }
  assert (Hlow : pow2 (a - b - 1) <= n # d).
  { rewrite Hx'. apply Qle_shift_div_l; [exact HD |].
    apply Qle_trans with (pow2 a); [| exact Hn1].
    replace a with ((a - b - 1) + (b + 1))%Z at 2 by lia.
    rewrite pow2_add. rewrite !(Qmult_comm (pow2 (a - b - 1))).
    apply Qmult_le_compat_r; [now apply Qlt_le_weak | apply Qlt_le_weak, pow2_pos]. }
  destruct (Qle_bool (pow2 (a - b)) (n # d)) eqn:Htest.
  - apply Qle_bool_iff in Htest. split; assumption.
  - split; [exact Hlow |].
    replace (a - b - 1 + 1)%Z with (a - b)%Z by lia.
    apply Qnot_le_lt. intros Hle. apply Qle_bool_iff in Hle. congruence.
Qed.

#[local] Instance rne_proper : Proper (Qeq ==> eq) rne.
Proof.
  intros q q' Hq. unfold rne.
  rewrite (Qfloor_comp q q' Hq).
  assert (Hc : (q - inject_Z (Qfloor q') ?= 1 # 2) =
               (q' - inject_Z (Qfloor q') ?= 1 # 2)).
  { apply Qcompare_comp; [| reflexivity]. now rewrite Hq. }
  now rewrite Hc.
Qed.

Lemma rne_Z (z : Z) : rne (inject_Z z) = z.
Proof.
  unfold rne. rewrite Qfloor_Z.
  assert (H0 : inject_Z z - inject_Z z == 0) by ring.
  rewrite H0. reflexivity.
Qed.

Lemma rne_near (q : Q) :
  q - (1 # 2) <= inject_Z (rne q) /\ inject_Z (rne q) <= q + (1 # 2).
Proof.
  pose proof (Qfloor_le q) as Hlo. pose proof (Qlt_floor q) as Hhi.
  rewrite inject_Z_plus in Hhi. change (inject_Z 1) with 1 in Hhi.
  unfold rne. set (f := Qfloor q) in *.
  destruct (q - inject_Z f ?= 1 # 2) eqn:Hc.
  - apply Qeq_alt in Hc.
    destruct (Z.even f); [| rewrite inject_Z_plus; change (inject_Z 1) with 1];
      split; lra.
  - apply Qlt_alt in Hc. split; lra.
  - apply Qgt_alt in Hc. rewrite inject_Z_plus. change (inject_Z 1) with 1.
    split; lra.
Qed.

(** Rounding a positive number to 53 bits moves it by at most half a unit
    in the last place, which is at most [u] times the number. *)
Lemma round_error (x : Q) :
  0 < x ->
  let s := pow2 (binade x - 52) in
  x * (1 - u) <= inject_Z (rne (x / s)) * s /\
  inject_Z (rne (x / s)) * s <= x * (1 + u).
Proof.
  intros Hx s.
  destruct (binade_spec x Hx) as [He _].
  assert (Hs : 0 < s) by apply pow2_pos.
  assert (Hsx : s * (1 # 2) <= x * u).
  { unfold s. replace (binade x - 52)%Z with (binade x + -52)%Z by lia.
    rewrite pow2_add.
    assert (Hu : pow2 (-52) * (1 # 2) == u) by reflexivity.
    rewrite <- Qmult_assoc, Hu.
    apply Qmult_le_compat_r; [exact He | now vm_compute]. }
  destruct (rne_near (x / s)) as [Hlo Hhi].
  set (m := inject_Z (rne (x / s))) in *.
  assert (Hxs : x / s * s == x).
  { field. intros H0. rewrite H0 in Hs. exact (Qlt_irrefl 0 Hs). }
  assert (H1 : (x / s - (1 # 2)) * s <= m * s)
    by (apply Qmult_le_compat_r; [exact Hlo | now apply Qlt_le_weak]).
  assert (H2 : m * s <= (x / s + (1 # 2)) * s)
    by (apply Qmult_le_compat_r; [exact Hhi | now apply Qlt_le_weak]).
  assert (E1 : (x / s - (1 # 2)) * s == x - s * (1 # 2))
    by (rewrite <- Hxs at 2; ring).
  assert (E2 : (x / s + (1 # 2)) * s == x + s * (1 # 2))
    by (rewrite <- Hxs at 2; ring).
  rewrite E1 in H1. rewrite E2 in H2.
  split; lra.
Qed.

Lemma fl64_eq (x y : Q) : x == y -> fl64 x = fl64 y.
Proof. intros Hxy. unfold fl64. now rewrite (Qred_complete x y Hxy). Qed.

Lemma fl64_zero (x : Q) : x == 0 -> fl64 x == 0.
Proof. intros Hx. rewrite (fl64_eq x 0 Hx). reflexivity. Qed.

Lemma fl64_unfold (x : Q) :
  ~ x == 0 ->
  fl64 x == inject_Z (rne (x / pow2 (binade (Qabs (Qred x)) - 52)))
            * pow2 (binade (Qabs (Qred x)) - 52).
Proof.
  intros Hx. unfold fl64.
  destruct (Qeq_bool (Qred x) 0) eqn:Hz.
  - apply Qeq_bool_iff in Hz. rewrite Qred_correct in Hz. contradiction.
  - cbv zeta.
    assert (Hq : Qred x / pow2 (binade (Qabs (Qred x)) - 52)
                 == x / pow2 (binade (Qabs (Qred x)) - 52))
      by (apply Qdiv_comp; [apply Qred_correct | reflexivity]).
    now rewrite (rne_proper _ _ Hq).
Qed.

Lemma Qabs_pos_eq (x : Q) : 0 < x -> Qabs x = x.
Proof.
  destruct x as [[| p | p] d]; intros Hx; try reflexivity; discriminate Hx.
Qed.

Lemma fl64_bounds (x : Q) :
  0 <= x -> x * (1 - u) <= fl64 x /\ fl64 x <= x * (1 + u).
Proof.
  intros Hx. apply Qle_lteq in Hx as [Hpos | Hzero].
  - assert (Hne : ~ x == 0).
    { intros H0. rewrite H0 in Hpos. exact (Qlt_irrefl 0 Hpos). }
    rewrite (fl64_unfold x Hne).
    assert (Hr : 0 < Qred x) by now rewrite Qred_correct.
    rewrite (Qabs_pos_eq _ Hr).
    destruct (round_error (Qred x) Hr) as [Hlo Hhi]. cbv zeta in Hlo, Hhi.
    assert (Hq : Qred x / pow2 (binade (Qred x) - 52)
                 == x / pow2 (binade (Qred x) - 52))
      by (apply Qdiv_comp; [apply Qred_correct | reflexivity]).
    rewrite (rne_proper _ _ Hq) in Hlo, Hhi.
    pose proof (Qred_correct x) as E. split.
    + eapply Qle_trans; [| exact Hlo]. apply Qle_lteq. right.
      apply Qmult_comp; [symmetry; exact E | reflexivity].
    + eapply Qle_trans; [exact Hhi |]. apply Qle_lteq. right.
      apply Qmult_comp; [exact E | reflexivity].
  - symmetry in Hzero. rewrite (fl64_zero x Hzero), Hzero. split; discriminate.
Qed.

(** An integer of at most 53 bits, scaled by a power of two, is a double. *)
Lemma scaled_integer (n : Z) :
  (n <> 0)%Z -> (Z.abs n <= 2 ^ 53)%Z ->
  exists z : Z, inject_Z n * pow2 (52 - Z.log2 (Z.abs n)) == inject_Z z.
Proof.
  intros Hn Hb. set (a := Z.log2 (Z.abs n)).
  assert (Ha0 : (0 <= a)%Z) by apply Z.log2_nonneg.
  destruct (Z.log2_spec (Z.abs n) ltac:(lia)) as [Hlo Hhi]. fold a in Hlo, Hhi.
  assert (Ha : (a <= 53)%Z).
  { apply Z.log2_le_mono in Hb. fold a in Hb.
    rewrite Z.log2_pow2 in Hb by lia. exact Hb. }
  destruct (Z_le_gt_dec a 52) as [Hsmall | Hbig].
  - exists (n * 2 ^ (52 - a))%Z.
    rewrite inject_Z_mult, pow2_Z by lia. reflexivity.
  - assert (a = 53)%Z by lia. subst a.
    replace (Z.log2 (Z.abs n)) with 53%Z in * by lia.
    assert (Habs : Z.abs n = (2 ^ 53)%Z) by lia.
    exists (n / 2)%Z.
    assert (Hn2 : n = (2 * (n / 2))%Z).
    { destruct (Z.abs_eq_or_opp n) as [E | E]; rewrite E in Habs.
      - rewrite Habs. reflexivity.
      - assert (n = - 2 ^ 53)%Z by lia. subst n. reflexivity. }
    rewrite Hn2 at 1. rewrite inject_Z_mult.
    change (pow2 (52 - 53)) with (1 # 2). change (inject_Z 2) with 2. field.
Qed.

Lemma fl64_exact (x : Q) (n K : Z) :
  x == inject_Z n * pow2 (- K) -> (Z.abs n <= 2 ^ 53)%Z -> fl64 x == x.
Proof.
  intros Hx Hb.
  destruct (Z.eq_dec n 0%Z) as [-> | Hn].
  - assert (H0 : x == 0) by (rewrite Hx; ring).
    rewrite (fl64_zero x H0). now symmetry.
  - set (a := Z.log2 (Z.abs n)).
    assert (HK : 0 < pow2 (- K)) by apply pow2_pos.
    assert (Habs : Qabs x == inject_Z (Z.abs n) * pow2 (- K)).
    { rewrite Hx, Qabs_Qmult. rewrite (Qabs_pos (pow2 (- K))) by now apply Qlt_le_weak.
      apply Qmult_comp; [| reflexivity].
      unfold Qabs, inject_Z. reflexivity. }
    destruct (log2_bounds (Z.abs n) ltac:(lia)) as [Hlo Hhi]. fold a in Hlo, Hhi.
    assert (Hpos : 0 < Qabs x).
    { rewrite Habs. apply Qmult_lt_0_compat; [| exact HK].
      change 0 with (inject_Z 0). rewrite <- Zlt_Qlt. lia. }
    assert (Hne : ~ x == 0).
    { intros H0. rewrite H0 in Hpos. discriminate Hpos. }
    assert (Hred : Qabs (Qred x) == Qabs x) by now rewrite Qred_correct.
    assert (Hbin : binade (Qabs (Qred x)) = (a - K)%Z).
    { assert (Hrp : 0 < Qabs (Qred x)) by now rewrite Hred.
      destruct (binade_spec _ Hrp) as [B1 B2].
      apply (binade_unique (Qabs (Qred x))); try assumption.
      - rewrite Hred, Habs. replace (a - K)%Z with (a + - K)%Z by lia.
        rewrite pow2_add. apply Qmult_le_compat_r; [exact Hlo | now apply Qlt_le_weak].
      - rewrite Hred, Habs. replace (a - K + 1)%Z with ((a + 1) + - K)%Z by lia.
        rewrite pow2_add. now apply Qmult_lt_compat_r. }
    rewrite (fl64_unfold x Hne), Hbin.
    set (s := pow2 (a - K - 52)).
    assert (Hs : 0 < s) by apply pow2_pos.
    assert (Hsplit : pow2 (- K) == pow2 (52 - a) * s).
    { unfold s. rewrite <- pow2_add. replace (52 - a + (a - K - 52))%Z with (- K)%Z by lia.
      reflexivity. }
    destruct (scaled_integer n Hn Hb) as (z & Hz). fold a in Hz.
    assert (Hq : x / s == inject_Z z).
    { rewrite <- Hz, Hx, Hsplit. field.
      intros H0. rewrite H0 in Hs. discriminate Hs. }
    rewrite (rne_proper _ _ Hq), rne_Z.
    rewrite <- Hz, Hx, Hsplit. ring.
Qed.

(** The laws of [Rounding] hold for the double rounding. *)
#[export] Instance double_rounding : Rounding fl64.
Proof.
  split.
  - intros x y Hxy. now rewrite (fl64_eq x y Hxy).
  - intros x Hx. now apply fl64_bounds.
  - intros x Hx. now apply fl64_bounds.
  - intros n k Hn. split.
    + apply (fl64_exact _ n 0); [| exact Hn].
      change (pow2 (- 0)) with 1. rewrite Qmult_1_r. reflexivity.
    + apply (fl64_exact _ n (Z.pos k)); [| exact Hn].
      assert (Hden : inject_Z (Z.pos (2 ^ k)) == pow2 (Z.pos k)).
      { rewrite Pos2Z.inj_pow. apply pow2_Z. lia. }
      rewrite Qmake_Qdiv. unfold Qdiv. apply Qmult_comp; [reflexivity |].
      rewrite Hden. unfold pow2. rewrite Qpower_opp. reflexivity.
Qed.

End DoubleRounding.

(** ** PDF *)

Section Pdf.
Context (E : Env) {R : Rounding (fl E)}.
Local Open Scope Q_scope.

Lemma float_of_int_pos (n : Z) : (0 < n)%Z -> 0 < float_of_int E n.
Proof.
  intros Hn. unfold float_of_int. apply fl_pos; [exact R |].
  change 0 with (inject_Z 0). rewrite <- Zlt_Qlt. exact Hn.
Qed.

Lemma fdiv_ok (a b : Q) : ~ b == 0 -> fdiv E a b = Ok (fl E (a / b)).
Proof.
  intros Hb. unfold fdiv.
  destruct (Qeq_bool b 0) eqn:Hz; [| reflexivity].
  apply Qeq_bool_iff in Hz. contradiction.
Qed.

Lemma pos_neq_0 (b : Q) : 0 < b -> ~ b == 0.
Proof. intros Hb H0. rewrite H0 in Hb. exact (Qlt_irrefl 0 Hb). Qed.

Lemma ratio_pos (P d : Q) : 0 < P -> 0 < d -> 0 < fl E (P / d).
Proof.
  intros HP Hd. apply fl_pos; [exact R |].
  unfold Qdiv. apply Qmult_lt_0_compat; [exact HP | now apply Qinv_lt_0_compat].
Qed.

Lemma py_min_pos a b : 0 < a -> 0 < b -> 0 < py_min a b.
Proof. unfold py_min. now destruct (Qle_bool a b). Qed.

(** The canvas of [convert_to_pdf], given that the PNG buffer decodes. *)
Lemma pdf_canvas_run (im pil : Image) (save_path : string) (png : bytes) :
  0 < float_of_int E (size pil).1 -> 0 < float_of_int E (size pil).2 ->
  png_buffer E im = Ok png -> Image_open E png = Ok pil ->
  let W := float_of_int E (size pil).1 in
  let H := float_of_int E (size pil).2 in
  let scale := fmul E (py_min (fl E (612 / W)) (fl E (792 / H))) (lit_0_8 E) in
  let sw := fmul E W scale in
  let sh := fmul E H scale in
  pdf_canvas E im save_path =
    Ok (reportlab.drawInlineImage
          (reportlab.mkCanvas save_path reportlab.letter [] []) pil
          (fl E (fsub E 612 sw / 2)) (fl E (fsub E 792 sh / 2)) sw sh).
Proof.
  intros HW HH Hpng Hpil. cbv zeta. unfold pdf_canvas.
  rewrite Hpng. cbn [mbind result_bind Py.bind]. rewrite Hpil.
  cbn [mbind result_bind Py.bind reportlab.letter fst snd].
  rewrite (fdiv_ok _ _ (pos_neq_0 _ HW)). cbn [mbind result_bind Py.bind].
  rewrite (fdiv_ok _ _ (pos_neq_0 _ HH)). cbn [mbind result_bind Py.bind].
  rewrite !fdiv_ok by (intros H0; discriminate H0).
  reflexivity.
Qed.

End Pdf.

Section PdfWrite.
Context (E : Env).

Lemma convert_to_pdf_run conv p c s :
  pdf_canvas E (image conv) p = Ok c ->
  (length (pdf_tobytes E (now s) (reportlab.finished c))
     <= free s + os.size_at s p)%nat ->
  exists s',
    convert_to_pdf E conv p s = (Ok tt, s') /\
    fs s' = <[p := pdf_tobytes E (now s) (reportlab.finished c)]> (fs s).
Proof.
  intros Hc Hroom. unfold convert_to_pdf.
  erewrite bind_ok by (unfold lift; rewrite Hc; reflexivity).
  erewrite bind_ok by (unfold time_time; reflexivity).
  rewrite (write_file_ok _ _ _ Hroom). eexists. split; reflexivity.
Qed.

End PdfWrite.

(** C2.  For a decoded image of width [w] and height [h], [convert_to_pdf]
    hands the image itself to the encoder under the format "PNG"; given
    that the bytes [png] it returns decode again with the same dimensions,
    it writes one Letter page (612 x 792 points) carrying one inline image,
    the image decoded from [png].
    Both sides are multiplied by the same factor
    [min(612 / w, 792 / h) * 0.8], the image is placed at
    [x = (612 - width) / 2], [y = (792 - height) / 2], all in float
    arithmetic, and the drawn rectangle lies within the page:
    [0 <= x], [0 <= y], [x + width <= 612], [y + height <= 792]. *)
Theorem pdf_centred_on_letter (E : Env) (self : ImageConverter) (pil : Image)
    (save_path : string) (png : bytes) (w h : Z) (s : State) :
  Rounding (fl E) ->
  size (image self) = (w, h) -> 0 < w -> 0 < h ->
  encode E (mkSave (image self) "PNG" None) = Ok png ->
  Image_open E png = Ok pil ->
  size pil = (w, h) ->
  let W := float_of_int E w in
  let H := float_of_int E h in
  let scale := fmul E (py_min (fl E (612 / W)) (fl E (792 / H))) (lit_0_8 E) in
  let width := fmul E W scale in
  let height := fmul E H scale in
  let x := fl E (fsub E 612 width / 2) in
  let y := fl E (fsub E 792 height / 2) in
  let page :=
    reportlab.mkCanvas save_path (612, 792)%Q
      [[reportlab.InlineImage pil x y width height]] [] in
  (length (pdf_tobytes E (now s) page) <= free s + os.size_at s save_path)%nat ->
  (exists s',
      convert_to_pdf E self save_path s = (Ok tt, s') /\
      fs s' !! save_path = Some (pdf_tobytes E (now s) page)) /\
  (0 <= x /\ 0 <= y /\ x + width <= 612 /\ y + height <= 792 /\
   0 < width /\ 0 < height)%Q.
Proof.
  intros R Hsize Hw Hh Henc Hpil Hpsize W H scale width height x y page Hroom.
  assert (Hpng : png_buffer E (image self) = Ok png) by exact Henc.
  assert (HW : (0 < W)%Q) by now apply float_of_int_pos.
  assert (HH : (0 < H)%Q) by now apply float_of_int_pos.
  assert (Hrw : (0 < fl E (612 / W))%Q) by (apply ratio_pos; [exact R | reflexivity | exact HW]).
  assert (Hrh : (0 < fl E (792 / H))%Q) by (apply ratio_pos; [exact R | reflexivity | exact HH]).
  set (m := py_min (fl E (612 / W)) (fl E (792 / H))) in *.
  assert (Hm : (0 < m)%Q) by now apply py_min_pos.
  assert (Hscale : (0 < scale)%Q).
  { unfold scale, fmul, lit_0_8. apply fl_pos; [exact R |].
    apply Qmult_lt_0_compat; [exact Hm |]. apply fl_pos; [exact R | reflexivity]. }
  assert (Hwidth : (width <= 612)%Q).
  { unfold width, scale, fmul, lit_0_8.
    apply (scaled_side_le (fl E)); [now vm_compute | exact HW | now apply Qlt_le_weak |].
    apply py_min_le_l. }
  assert (Hheight : (height <= 792)%Q).
  { unfold height, scale, fmul, lit_0_8.
    apply (scaled_side_le (fl E)); [now vm_compute | exact HH | now apply Qlt_le_weak |].
    apply py_min_le_r. }
  split.
  - assert (Hcanvas := pdf_canvas_run E (image self) pil save_path png).
    rewrite Hpsize in Hcanvas. cbn [fst snd] in Hcanvas.
    specialize (Hcanvas HW HH Hpng Hpil). cbv zeta in Hcanvas.
    destruct (convert_to_pdf_run E self save_path _ s Hcanvas) as (s' & Hrun & Hfs).
    { exact Hroom. }
    exists s'. split; [exact Hrun |]. rewrite Hfs. apply lookup_insert_eq.
  - destruct (centred_inside (fl E) 612 width Hwidth) as [Hx0 Hx1].
    destruct (centred_inside (fl E) 792 height Hheight) as [Hy0 Hy1].
    unfold x, y, fsub. repeat split; try assumption.
    + unfold width, fmul. apply fl_pos; [exact R |]. now apply Qmult_lt_0_compat.
    + unfold height, fmul. apply fl_pos; [exact R |]. now apply Qmult_lt_0_compat.
Qed.

Lemma pdf_centred_on_letter_witness :
  let E := double_env in
  let self := mkConverter "uploads/a.png" Demo.picture in
  let pil := mkImage (Some "PNG") "RGB" (200, 100) [] [] in
  let s := Demo.state [] 100 in
  let scale := fmul E (py_min (fl E (612 / float_of_int E 200))
                              (fl E (792 / float_of_int E 100))) (lit_0_8 E) in
  let width := fmul E (float_of_int E 200) scale in
  let height := fmul E (float_of_int E 100) scale in
  let x := fl E (fsub E 612 width / 2) in
  let y := fl E (fsub E 792 height / 2) in
  let page :=
    reportlab.mkCanvas "outputs/a.pdf" (612, 792)%Q
      [[reportlab.InlineImage pil x y width height]] [] in
  (width == 8613134287346075 # 17592186044416 /\
   height == 8613134287346075 # 35184372088832 /\
   x == 2153283571836517 # 35184372088832 /\
   y == 4813222101752217 # 17592186044416)%Q /\
  (exists s',
      convert_to_pdf E self "outputs/a.pdf" s = (Ok tt, s') /\
      fs s' !! "outputs/a.pdf" = Some (pdf_tobytes E (now s) page)) /\
  (0 <= x /\ 0 <= y /\ x + width <= 612 /\ y + height <= 792 /\
   0 < width /\ 0 < height)%Q.
Proof.
  intros E self pil s scale width height x y page.
  split; [now vm_compute |].
  exact (pdf_centred_on_letter E self pil "outputs/a.pdf"
           Demo.stored 200 100 s
           double_rounding eq_refl eq_refl eq_refl eq_refl eq_refl eq_refl
           ltac:(vm_compute; lia)).
Defined.

(** ** DOCX *)

Section Docx.
Context (E : Env) {R : Rounding (fl E)}.
Local Open Scope Q_scope.

Lemma py_int_nonneg (x : Q) : 0 <= x -> py_int x = Qfloor x.
Proof.
  intros Hx. unfold py_int. now rewrite (proj2 (Qle_bool_iff 0 x) Hx).
Qed.

Lemma py_int_exact (x : Q) (n : Z) : (0 <= n)%Z -> x == inject_Z n -> py_int x = n.
Proof.
  intros Hn Hx. rewrite py_int_nonneg.
  - rewrite Hx. apply Qfloor_Z.
  - rewrite Hx. change 0 with (inject_Z 0). now rewrite <- Zle_Qle.
Qed.

(** A whole number of inches that fits a float is converted exactly. *)
Lemma Inches_whole (n : Z) :
  (0 <= n)%Z -> (n * 914400 <= 2 ^ 53)%Z ->
  Inches E (inject_Z n) = (n * 914400)%Z.
Proof.
  intros Hn Hfit. unfold Inches, fmul. apply py_int_exact; [lia |].
  rewrite <- inject_Z_mult. apply fl_int; [exact R | lia].
Qed.

(** [Inches(fl(t) * 6)] is [6 t] inches up to three roundings and the
    truncation to whole EMU. *)
Lemma Inches_ratio_bounds (t : Q) :
  0 <= t ->
  let v := inject_Z (Inches E (fmul E (fl E t) 6)) in
  let T := t * 6 * 914400 in
  T * ((1 - u) * (1 - u) * (1 - u)) - 1 < v /\
  v <= T * ((1 + u) * (1 + u) * (1 + u)) /\ 0 <= v.
Proof.
  intros Ht v T.
  assert (Hlo : 0 <= 1 - u) by now vm_compute.
  assert (Hhi : 0 <= 1 + u) by now vm_compute.
  set (a := fl E t).
  assert (Ha0 : 0 <= a) by (apply fl_nonneg; assumption).
  assert (Ha1 : t * (1 - u) <= a) by now apply fl_lower.
  assert (Ha2 : a <= t * (1 + u)) by now apply fl_upper.
  set (b := fl E (a * 6)).
  assert (Ha6 : 0 <= a * 6) by (apply Qmult_le_0_compat; [exact Ha0 | now vm_compute]).
  assert (Hb0 : 0 <= b) by (apply fl_nonneg; assumption).
  assert (Hb1 : a * 6 * (1 - u) <= b) by now apply fl_lower.
  assert (Hb2 : b <= a * 6 * (1 + u)) by now apply fl_upper.
  set (c := fl E (b * inject_Z docx.EMUS_PER_INCH)).
  assert (Hbe : 0 <= b * inject_Z docx.EMUS_PER_INCH)
    by (apply Qmult_le_0_compat; [exact Hb0 | now vm_compute]).
  assert (Hc0 : 0 <= c) by (apply fl_nonneg; assumption).
  assert (Hc1 : b * inject_Z docx.EMUS_PER_INCH * (1 - u) <= c) by now apply fl_lower.
  assert (Hc2 : c <= b * inject_Z docx.EMUS_PER_INCH * (1 + u)) by now apply fl_upper.
  assert (Hv : v = inject_Z (Qfloor c)).
  { unfold v, Inches, fmul. fold a. fold b. fold c. now rewrite py_int_nonneg. }
  assert (HT1 : T * ((1 - u) * (1 - u) * (1 - u)) <= c).
  { apply Qle_trans with (b * inject_Z docx.EMUS_PER_INCH * (1 - u)); [| exact Hc1].
    apply Qle_trans with (a * 6 * (1 - u) * inject_Z docx.EMUS_PER_INCH * (1 - u)).
    - apply Qle_trans with (t * (1 - u) * 6 * (1 - u) * inject_Z docx.EMUS_PER_INCH * (1 - u)).
      + apply Qle_lteq. right. unfold T. change (inject_Z docx.EMUS_PER_INCH) with 914400. ring.
      + repeat (apply Qmult_le_compat_r; [| first [exact Hlo | now vm_compute]]).
        exact Ha1.
    - repeat (apply Qmult_le_compat_r; [| first [exact Hlo | now vm_compute]]).
      exact Hb1. }
  assert (HT2 : c <= T * ((1 + u) * (1 + u) * (1 + u))).
  { apply Qle_trans with (b * inject_Z docx.EMUS_PER_INCH * (1 + u)); [exact Hc2 |].
    apply Qle_trans with (a * 6 * (1 + u) * inject_Z docx.EMUS_PER_INCH * (1 + u)).
    - repeat (apply Qmult_le_compat_r; [| first [exact Hhi | now vm_compute]]).
      exact Hb2.
    - apply Qle_trans with (t * (1 + u) * 6 * (1 + u) * inject_Z docx.EMUS_PER_INCH * (1 + u)).
      + repeat (apply Qmult_le_compat_r; [| first [exact Hhi | now vm_compute]]).
        exact Ha2.
      + apply Qle_lteq. right. unfold T. change (inject_Z docx.EMUS_PER_INCH) with 914400. ring. }
  rewrite Hv.
  pose proof (Qfloor_le c) as Hfl.
  pose proof (Qlt_floor c) as Hlt. rewrite inject_Z_plus in Hlt.
  change (inject_Z 1) with 1 in Hlt.
  repeat split.
  - lra.
  - lra.
  - change 0 with (inject_Z 0). rewrite <- Zle_Qle.
    apply Qfloor_resp_le in Hc0. exact Hc0.
Qed.

Lemma docx_document_run (im : Image) (png : bytes) (w h : Z) :
  size im = (w, h) -> (0 < w)%Z -> (0 < h)%Z ->
  png_buffer E im = Ok png ->
  docx_document E im =
    Ok (docx.mkDocument
          [docx.Heading "Converted Image" 0;
           docx.Paragraph
             [[docx.Picture png
                 (if (h <? w)%Z then Inches E 6
                  else Inches E (fmul E (fl E (inject_Z w / inject_Z h)) 6))
                 (if (h <? w)%Z
                  then Inches E (fmul E (fl E (inject_Z h / inject_Z w)) 6)
                  else Inches E 6)]]]).
Proof.
  intros Hsize Hw Hh Hpng. unfold docx_document.
  rewrite Hpng, Hsize. cbn [mbind result_bind Py.bind fst snd].
  assert (Hw0 : ~ inject_Z w == 0).
  { change 0 with (inject_Z 0). rewrite inject_Z_injective. lia. }
  assert (Hh0 : ~ inject_Z h == 0).
  { change 0 with (inject_Z 0). rewrite inject_Z_injective. lia. }
  destruct (h <? w)%Z.
  - rewrite (fdiv_ok E _ _ Hw0). reflexivity.
  - rewrite (fdiv_ok E _ _ Hh0). reflexivity.
Qed.

End Docx.

Section DocxWrite.
Context (E : Env).

Lemma convert_to_docx_run conv p d s :
  docx_document E (image conv) = Ok d ->
  (length (docx_tobytes E (now s) d) <= free s + os.size_at s p)%nat ->
  exists s',
    convert_to_docx E conv p s = (Ok tt, s') /\
    fs s' = <[p := docx_tobytes E (now s) d]> (fs s).
Proof.
  intros Hd Hroom. unfold convert_to_docx.
  erewrite bind_ok by (unfold lift; rewrite Hd; reflexivity).
  erewrite bind_ok by (unfold time_time; reflexivity).
  rewrite (write_file_ok _ _ _ Hroom). eexists. split; reflexivity.
Qed.

End DocxWrite.

(** C3 (as amended).  For a decoded image of width [w] and height [h],
    [convert_to_docx] hands the image itself to the encoder under the
    format "PNG" and writes a document whose body is the level-0 heading
    "Converted Image" followed by one paragraph with one picture made of the
    bytes [png] the encoder returned.  When [w > h] the picture is [Inches(6.0)] wide, that is 5486400
    EMU, and [Inches((h / w) * 6.0)] high; otherwise it is [Inches(6.0)]
    high and [Inches((w / h) * 6.0)] wide.  The computed side is
    6 x (short / long) inches up to the three float roundings and the
    truncation of a length to whole EMU (1/914400 inch). *)
Theorem docx_heading_and_picture (E : Env) (self : ImageConverter)
    (save_path : string) (png : bytes) (w h : Z) (s : State) :
  Rounding (fl E) ->
  size (image self) = (w, h) -> 0 < w -> 0 < h ->
  encode E (mkSave (image self) "PNG" None) = Ok png ->
  let width :=
    if h <? w then Inches E 6
    else Inches E (fmul E (fl E (inject_Z w / inject_Z h)) 6) in
  let height :=
    if h <? w then Inches E (fmul E (fl E (inject_Z h / inject_Z w)) 6)
    else Inches E 6 in
  let doc :=
    docx.mkDocument
      [docx.Heading "Converted Image" 0;
       docx.Paragraph [[docx.Picture png width height]]] in
  (length (docx_tobytes E (now s) doc) <= free s + os.size_at s save_path)%nat ->
  (exists s',
      convert_to_docx E self save_path s = (Ok tt, s') /\
      fs s' !! save_path = Some (docx_tobytes E (now s) doc)) /\
  (h < w ->
     width = 6 * 914400 /\
     let T := (inject_Z h / inject_Z w * 6 * 914400)%Q in
     (T * ((1 - u) * (1 - u) * (1 - u)) - 1 < inject_Z height /\
      inject_Z height <= T * ((1 + u) * (1 + u) * (1 + u)))%Q) /\
  (w <= h ->
     height = 6 * 914400 /\
     let T := (inject_Z w / inject_Z h * 6 * 914400)%Q in
     (T * ((1 - u) * (1 - u) * (1 - u)) - 1 < inject_Z width /\
      inject_Z width <= T * ((1 + u) * (1 + u) * (1 + u)))%Q).
Proof.
  intros R Hsize Hw Hh Henc width height doc Hroom.
  assert (Hpng : png_buffer E (image self) = Ok png) by exact Henc.
  assert (Hsix : Inches E 6 = 6 * 914400).
  { apply (Inches_whole E 6); [lia | now vm_compute]. }
  assert (Hratio : forall a b : Z, 0 < a -> 0 < b -> (0 <= inject_Z a / inject_Z b)%Q).
  { intros a b Ha Hb. unfold Qdiv. apply Qmult_le_0_compat.
    - change 0%Q with (inject_Z 0). rewrite <- Zle_Qle. lia.
    - apply Qinv_le_0_compat. change 0%Q with (inject_Z 0). rewrite <- Zle_Qle. lia. }
  split; [| split].
  - pose proof (docx_document_run E (image self) png w h Hsize Hw Hh Hpng) as Hdoc.
    destruct (convert_to_docx_run E self save_path _ s Hdoc Hroom) as (s' & Hrun & Hfs).
    exists s'. split; [exact Hrun |]. rewrite Hfs. apply lookup_insert_eq.
  - intros Hlt. unfold width, height. rewrite (proj2 (Z.ltb_lt h w) Hlt).
    split; [exact Hsix |]. cbv zeta.
    destruct (Inches_ratio_bounds E (inject_Z h / inject_Z w) (Hratio h w Hh Hw))
      as (Hlo & Hhi & _).
    split; assumption.
  - intros Hle. unfold width, height. rewrite (proj2 (Z.ltb_ge h w) Hle).
    split; [exact Hsix |]. cbv zeta.
    destruct (Inches_ratio_bounds E (inject_Z w / inject_Z h) (Hratio w h Hw Hh))
      as (Hlo & Hhi & _).
    split; assumption.
Qed.

Lemma docx_heading_and_picture_witness :
  let E := double_env in
  let self := mkConverter "uploads/a.png" Demo.picture in
  let s := Demo.state [] 100 in
  let width := Inches E 6 in
  let height := Inches E (fmul E (fl E (inject_Z 100 / inject_Z 200)) 6) in
  let doc :=
    docx.mkDocument
      [docx.Heading "Converted Image" 0;
       docx.Paragraph [[docx.Picture Demo.stored width height]]] in
  (width = 5486400 /\ height = 2743200) /\
  exists s',
    convert_to_docx E self "outputs/a.docx" s = (Ok tt, s') /\
    fs s' !! "outputs/a.docx" = Some (docx_tobytes E (now s) doc).
Proof.
  intros E self s width height doc.
  split; [now vm_compute |].
  exact (proj1 (docx_heading_and_picture E self "outputs/a.docx" Demo.stored
                  200 100 s double_rounding eq_refl eq_refl eq_refl eq_refl
                  ltac:(vm_compute; lia))).
Defined.

(** C3 (as stated) fails on Python's floats.  For a 5 x 3 image the rule
    asks for a height of 6 x 3/5 inches, which are 3291840 EMU; the float
    product [(3 / 5) * 6.0 * 914400] falls just below that whole number and
    [Inches] truncates it to 3291839 EMU. *)
Lemma docx_rule_fails_5_by_3 :
  let im := mkImage (Some "PNG") "RGB" (5, 3) [] [] in
  docx_document double_env im =
    Ok (docx.mkDocument
          [docx.Heading "Converted Image" 0;
           docx.Paragraph
             [[docx.Picture [Demo.byte_of 5; Demo.byte_of 3] 5486400 3291839]]]) /\
  ((SpecDocx.displayed_size 5 3).2 == 3291840)%Q /\
  ~ SpecDocx.docx_rule double_env im.
Proof.
  cbv zeta.
  assert (Hdoc : docx_document double_env (mkImage (Some "PNG") "RGB" (5, 3) [] []) =
    Ok (docx.mkDocument
          [docx.Heading "Converted Image" 0;
           docx.Paragraph
             [[docx.Picture [Demo.byte_of 5; Demo.byte_of 3] 5486400 3291839]]]))
    by now vm_compute.
  split; [exact Hdoc |]. split; [now vm_compute |].
  intros (png & width & height & Hrule & _ & Hheight).
  rewrite Hdoc in Hrule. injection Hrule as _ _ <-.
  vm_compute in Hheight. discriminate Hheight.
Qed.

(** The example of the specification: a 400 x 200 image is shown 6 in wide
    and 3 in high, under every rounding that satisfies the laws. *)
Lemma docx_400_by_200 (E : Env) (im : Image) (png : bytes) :
  Rounding (fl E) ->
  size im = (400, 200) ->
  png_buffer E im = Ok png ->
  docx_document E im =
    Ok (docx.mkDocument
          [docx.Heading "Converted Image" 0;
           docx.Paragraph [[docx.Picture png (6 * 914400) (3 * 914400)]]]).
Proof.
  intros R Hsize Hpng.
  rewrite (docx_document_run E im png 400 200 Hsize) by (lia || exact Hpng).
  change (200 <? 400) with true. cbv iota.
  change (Inches E 6) with (Inches E (inject_Z 6)).
  rewrite (Inches_whole E 6) by (lia || now vm_compute).
  enough (Hh : Inches E (fmul E (fl E (inject_Z 200 / inject_Z 400)) 6) = 3 * 914400)
    by now rewrite Hh.
  unfold Inches, fmul. apply (py_int_exact _ (3 * 914400)); [lia |].
  assert (Hhalf : (fl E (inject_Z 200 / inject_Z 400) == 1 # 2)%Q).
  { assert (He : (inject_Z 200 / inject_Z 400 == 1 # 2 ^ 1)%Q) by reflexivity.
    rewrite He. apply (fl_dyadic 1 1%positive). now vm_compute. }
  assert (Hthree : (fl E (fl E (inject_Z 200 / inject_Z 400) * 6) == inject_Z 3)%Q).
  { rewrite Hhalf.
    assert (He : ((1 # 2) * 6 == inject_Z 3)%Q) by reflexivity.
    rewrite He. apply fl_int; [exact R | now vm_compute]. }
  rewrite Hthree, <- inject_Z_mult. apply fl_int; [exact R | now vm_compute].
Qed.

(** ** SVG *)

Section Base64.
Import base64.

Lemma sextet_cases (P : Z -> bool) :
  forallb P (map Z.of_nat (seq 0 64)) = true ->
  forall v, 0 <= v < 64 -> P v = true.
Proof.
  intros Hall v Hv. rewrite forallb_forall in Hall. apply Hall.
  rewrite <- (Z2Nat.id v) by lia. apply in_map, in_seq. lia.
Qed.

Lemma value_digit v : 0 <= v < 64 -> value (digit v) = Some v.
Proof.
  intros Hv.
  apply (sextet_cases
           (fun v => bool_decide (value (digit v) = Some v))) in Hv;
    [now apply bool_decide_eq_true_1 in Hv | now vm_compute].
Qed.

Lemma digit_not_pad v : 0 <= v < 64 -> Ascii.eqb (digit v) "=" = false.
Proof.
  intros Hv.
  apply (sextet_cases (fun v => negb (Ascii.eqb (digit v) "="))) in Hv;
    [now apply negb_true_iff in Hv | now vm_compute].
Qed.

Lemma u8_range b : 0 <= u8 b < 256.
Proof.
  unfold u8. pose proof (Strings.Byte.to_N_bounded b). lia.
Qed.

Lemma byte_of_u8 b : byte_of (u8 b) = b.
Proof.
  unfold byte_of, u8. rewrite N2Z.id, Strings.Byte.of_to_N. reflexivity.
Qed.

Lemma byte_of_eq z b : z = u8 b -> byte_of z = b.
Proof. intros ->. apply byte_of_u8. Qed.

Ltac sextets :=
  repeat match goal with
    | |- context [value (digit ?v)] =>
        rewrite (value_digit v) by (Z.div_mod_to_equations; lia)
    | |- context [Ascii.eqb (digit ?v) "="] =>
        rewrite (digit_not_pad v) by (Z.div_mod_to_equations; lia)
    end.

Lemma b64_roundtrip_upto (n : nat) :
  forall bs : bytes, (length bs <= n)%nat -> b64decode (b64encode bs) = Some bs.
Proof.
  induction n as [n IH] using lt_wf_ind. intros bs Hlen.
  destruct bs as [| a [| b [| c rest]]].
  - reflexivity.
  - pose proof (u8_range a) as Ha.
    cbn [b64encode b64decode]. cbv zeta. sextets.
    cbn [mbind option_bind]. cbn.
    do 2 f_equal. apply byte_of_eq. Z.div_mod_to_equations; lia.
  - pose proof (u8_range a) as Ha. pose proof (u8_range b) as Hb.
    cbn [b64encode b64decode]. cbv zeta. sextets.
    cbn [mbind option_bind]. sextets. cbn.
    f_equal. f_equal; [| f_equal].
    + apply byte_of_eq. Z.div_mod_to_equations; lia.
    + apply byte_of_eq. Z.div_mod_to_equations; lia.
  - pose proof (u8_range a) as Ha. pose proof (u8_range b) as Hb.
    pose proof (u8_range c) as Hc.
    cbn [b64encode b64decode]. cbv zeta. sextets.
    cbn [mbind option_bind]. sextets. cbn [mbind option_bind]. sextets.
    cbn [mbind option_bind].
    rewrite (IH (length rest)) by (cbn in Hlen; lia).
    cbn [mbind option_bind].
    f_equal. f_equal; [| f_equal; [| f_equal]].
    + apply byte_of_eq. Z.div_mod_to_equations; lia.
    + apply byte_of_eq. Z.div_mod_to_equations; lia.
    + apply byte_of_eq. Z.div_mod_to_equations; lia.
Qed.

(** Decoding gives back the encoded bytes. *)
Lemma b64decode_b64encode (bs : bytes) : b64decode (b64encode bs) = Some bs.
Proof. now apply (b64_roundtrip_upto (length bs)). Qed.

End Base64.

(** C4.  For a decoded image, [convert_to_svg] hands the image itself to
    the encoder under the format "PNG" and writes the serialisation of a
    drawing whose size is the pixel size of the image.  Beside the empty
    [<defs/>] that svgwrite gives every drawing, the drawing holds exactly
    one image element, inserted at (0, 0) with the size of the image, whose
    reference is the data URI "data:image/png;base64," followed by the
    base64 text of the bytes [png] the encoder returned (text that decodes
    back to those bytes). *)
Theorem svg_wraps_png (E : Env) (self : ImageConverter) (save_path : string)
    (png : bytes) (s : State) :
  encode E (mkSave (image self) "PNG" None) = Ok png ->
  let picture :=
    svgwrite.mkImageElement
      ("data:image/png;base64," ++ base64.b64encode png)
      (0, 0) (size (image self)) in
  let dwg :=
    svgwrite.mkDrawing save_path (size (image self))
      [svgwrite.Defs; svgwrite.ImageElement picture] in
  (length (svg_tostring E dwg) <= free s + os.size_at s save_path)%nat ->
  (exists s',
      convert_to_svg E self save_path s = (Ok tt, s') /\
      fs s' !! save_path = Some (svg_tostring E dwg)) /\
  svgwrite.images dwg = [picture] /\
  base64.b64decode (base64.b64encode png) = Some png.
Proof.
  intros Henc picture dwg Hroom.
  assert (Hpng : png_buffer E (image self) = Ok png) by exact Henc.
  split; [| split; [reflexivity | apply b64decode_b64encode]].
  unfold convert_to_svg.
  erewrite bind_ok by (unfold lift; rewrite Hpng; reflexivity).
  change (svg_drawing (image self) save_path png) with dwg.
  rewrite (write_file_ok _ _ _ Hroom).
  eexists. split; [reflexivity |]. cbn [fs]. apply lookup_insert_eq.
Qed.

Lemma svg_wraps_png_witness :
  let self := mkConverter "uploads/a.png" Demo.picture in
  let dwg :=
    svgwrite.mkDrawing "outputs/a.svg" (200, 100)
      [svgwrite.Defs;
       svgwrite.ImageElement
         (svgwrite.mkImageElement "data:image/png;base64,yGQ=" (0, 0)
            (200, 100))] in
  exists s',
    convert_to_svg Demo.env self "outputs/a.svg" (Demo.state [] 100) = (Ok tt, s') /\
    fs s' !! "outputs/a.svg" = Some (svg_tostring Demo.env dwg).
Proof.
  intros self dwg.
  exact (proj1 (svg_wraps_png Demo.env self "outputs/a.svg" Demo.stored
                  (Demo.state [] 100) eq_refl ltac:(vm_compute; lia))).
Defined.

(** ** The model on doubles, at sample sizes

    The values are those CPython computes with its floats. *)

Example pdf_250_by_173 :
  exists pil x y w h,
    pdf_canvas double_env (mkImage (Some "PNG") "RGB" (250, 173) [] []) "a.pdf"
      = Ok (reportlab.mkCanvas "a.pdf" (612, 792)%Q []
              [reportlab.InlineImage pil x y w h]) /\
    (x == 1076641785918259 # 17592186044416 /\
     y == 7972722420333989 # 35184372088832 /\
     w == 4306567143673037 # 8796093022208 /\
     h == 5960288926843483 # 17592186044416)%Q.
Proof.
  do 5 eexists. split; [reflexivity |]. now vm_compute.
Qed.

(** A 5 x 3 image: 6 x 3/5 inches are 3291840 EMU, the float product falls
    just below and is truncated to 3291839. *)
Example docx_5_by_3 :
  docx_document double_env (mkImage (Some "PNG") "RGB" (5, 3) [] []) =
    Ok (docx.mkDocument
          [docx.Heading "Converted Image" 0;
           docx.Paragraph
             [[docx.Picture [Demo.byte_of 5; Demo.byte_of 3] 5486400 3291839]]]).
Proof. now vm_compute. Qed.

Example docx_3_by_7 :
  docx_document double_env (mkImage (Some "PNG") "RGB" (3, 7) [] []) =
    Ok (docx.mkDocument
          [docx.Heading "Converted Image" 0;
           docx.Paragraph
             [[docx.Picture [Demo.byte_of 3; Demo.byte_of 7] 2351314 5486400]]]).
Proof. now vm_compute. Qed.

(** [Double.fl64] against the float unit of the machine, on the operations
    of the examples above. *)
Example fl64_agrees_with_hardware :
  (Q_of_float (612 / 200)%float == Double.fl64 (612 / 200) /\
   Q_of_float (4 / 5)%float == Double.fl64 (4 # 5) /\
   Q_of_float (3 / 5 * 6 * 914400)%float
     == Double.fl64 (Double.fl64 (Double.fl64 (3 / 5) * 6) * 914400) /\
   Q_of_float (1 / 3)%float == Double.fl64 (1 # 3))%Q.
Proof. now vm_compute. Qed.


(* ===================================================================== *)
(** * Further properties of the program *)
(* ===================================================================== *)

(** ** File names *)

Section FileNames.

Lemma rsplit_no_dot s : contains_dot s = false -> rsplit_dot s = (s, None).
Proof.
  induction s as [| c s IH]; [reflexivity |].
  cbn [contains_dot rsplit_dot]. intros H.
  apply orb_false_iff in H as [Hc Hs]. now rewrite (IH Hs), Hc.
Qed.

Lemma rsplit_last_dot stem ext :
  contains_dot ext = false ->
  rsplit_dot (stem ++ "." ++ ext) = (stem, Some ext).
Proof.
  intros Hext. change ("." ++ ext) with (String "." ext).
  induction stem as [| c stem IH].
  - change ("" ++ String "." ext) with (String "." ext). cbn [rsplit_dot].
    now rewrite (rsplit_no_dot ext Hext).
  - change (String c stem ++ String "." ext)
      with (String c (stem ++ String "." ext)).
    cbn [rsplit_dot]. now rewrite IH.
Qed.

Lemma contains_dot_app stem ext : contains_dot (stem ++ "." ++ ext) = true.
Proof.
  change ("." ++ ext) with (String "." ext).
  induction stem as [| c stem IH]; [reflexivity |].
  change (String c stem ++ String "." ext)
    with (String c (stem ++ String "." ext)).
  cbn [contains_dot]. rewrite IH. apply orb_true_r.
Qed.

End FileNames.

(** X1.  Only the text after the last dot of a file name counts, whatever
    its case: a name [stem.ext] whose [ext] has no dot is allowed exactly
    when the lower-cased [ext] is one of the seven extensions; a name with
    no dot is never allowed. *)
Theorem allowed_file_last_extension (stem ext name : string) :
  contains_dot ext = false ->
  allowed_file (stem ++ "." ++ ext) = mem (lower ext) ALLOWED_EXTENSIONS /\
  (contains_dot name = false -> allowed_file name = false).
Proof.
  intros Hext. split.
  - unfold allowed_file. now rewrite contains_dot_app, (rsplit_last_dot stem ext Hext).
  - intros Hname. unfold allowed_file. now rewrite Hname.
Qed.

Lemma allowed_file_last_extension_witness :
  allowed_file ("holiday.tar" ++ "." ++ "PNG") = true /\
  allowed_file ("picture.png" ++ "." ++ "exe") = false /\
  allowed_file "png" = false.
Proof.
  pose proof (allowed_file_last_extension "holiday.tar" "PNG" "png" eq_refl) as [H1 H2].
  pose proof (allowed_file_last_extension "picture.png" "exe" "png" eq_refl) as [H3 _].
  split; [rewrite H1; reflexivity |].
  split; [rewrite H3; reflexivity | apply H2; reflexivity].
Defined.

(** X2.  The path under which an upload is stored is made of the upload
    folder, the fresh identifier and one of the seven lower-case
    extensions: nothing else of the client's file name gets into it, and
    the stored name passes [allowed_file] again. *)
Theorem upload_path_from_allow_list (uid original : string) :
  allowed_file original = true ->
  exists e,
    In e ALLOWED_EXTENSIONS /\
    upload_path_of uid original = os.path_join UPLOAD_FOLDER (uid ++ "." ++ e) /\
    allowed_file (uid ++ "." ++ e) = true.
Proof.
  intros Hok. unfold allowed_file in Hok.
  apply andb_prop in Hok as [_ Hext].
  destruct (rsplit_dot original).2 as [ext |] eqn:Hsplit; [| discriminate Hext].
  exists (lower ext). split; [now apply mem_true_iff |]. split.
  - unfold upload_path_of. now rewrite Hsplit.
  - assert (Hin : In (lower ext) ALLOWED_EXTENSIONS) by now apply mem_true_iff.
    assert (Hall : forall e, In e ALLOWED_EXTENSIONS ->
                     contains_dot e = false /\ mem (lower e) ALLOWED_EXTENSIONS = true).
    { intros e He. unfold ALLOWED_EXTENSIONS in He. cbn in He.
      repeat (destruct He as [<- | He]; [split; reflexivity |]). destruct He. }
    destruct (Hall _ Hin) as [Hnodot Hmem].
    unfold allowed_file.
    rewrite contains_dot_app, (rsplit_last_dot uid (lower ext) Hnodot).
    exact Hmem.
Qed.

Lemma upload_path_from_allow_list_witness :
  exists e,
    In e ALLOWED_EXTENSIONS /\
    upload_path_of "3f2a" "../../etc/Photo.JPeG" =
      os.path_join UPLOAD_FOLDER ("3f2a" ++ "." ++ e) /\
    allowed_file ("3f2a" ++ "." ++ e) = true.
Proof. apply upload_path_from_allow_list. reflexivity. Defined.


(** ** What a computation may touch *)

Section Frames.

Lemma touches_pure {A} p (m : M A) :
  (forall s, exists r, m s = (r, s)) -> touches_only p m.
Proof.
  intros Hm s r s' Hrun. destruct (Hm s) as (r0 & Hr0).
  rewrite Hr0 in Hrun. inversion Hrun; subst. auto.
Qed.

Lemma touches_ret {A} p (a : A) : touches_only p (mret a).
Proof. apply touches_pure. intros s. now exists (Ok a). Qed.

Lemma touches_raise {A} p e : touches_only p (@raise A e).
Proof. apply touches_pure. intros s. now exists (Raise e). Qed.

Lemma touches_lift {A} p (r : result A) : touches_only p (lift r).
Proof. apply touches_pure. intros s. now exists r. Qed.

Lemma touches_time p : touches_only p time_time.
Proof. apply touches_pure. intros s. now eexists. Qed.

Lemma touches_exists p q : touches_only p (os.path_exists q).
Proof. apply touches_pure. intros s. now eexists. Qed.

Lemma touches_read p q : touches_only p (os.read_file q).
Proof.
  apply touches_pure. intros s. unfold os.read_file.
  destruct (fs s !! q); now eexists.
Qed.

Lemma touches_write p bs : touches_only p (os.write_file p bs).
Proof. intros s r s' Hrun. eapply write_file_frame; eauto. Qed.

Lemma touches_write_unchecked p bs : touches_only p (os.write_unchecked p bs).
Proof.
  intros s r s' Hrun. unfold os.write_unchecked in Hrun.
  inversion Hrun; subst; cbn; split; auto.
  intros q Hq. now apply lookup_insert_ne.
Qed.

Lemma touches_remove p : touches_only p (os.remove p).
Proof.
  intros s r s' Hrun. unfold os.remove in Hrun.
  destruct (fs s !! p); inversion Hrun; subst; cbn; split; auto.
  intros q Hq. now apply lookup_delete_ne.
Qed.

Lemma touches_bind {A B} p (m : M A) (k : A -> M B) :
  touches_only p m -> (forall a, touches_only p (k a)) ->
  touches_only p (m ≫= k).
Proof.
  intros Hm Hk s r s' Hrun. unfold mbind, M_bind in Hrun.
  destruct (m s) as [[a | e] s1] eqn:Hms.
  - destruct (Hm _ _ _ Hms) as [Hn1 Hf1].
    destruct (Hk a _ _ _ Hrun) as [Hn2 Hf2].
    split; [congruence |]. intros q Hq. rewrite Hf2, Hf1; auto.
  - inversion Hrun; subst. eapply Hm; eauto.
Qed.

Lemma touches_bind_value {A B} p (m : M A) (k : A -> M B) :
  touches_only p m ->
  (forall a s s', m s = (Ok a, s') -> touches_only p (k a)) ->
  touches_only p (m ≫= k).
Proof.
  intros Hm Hk s r s' Hrun. unfold mbind, M_bind in Hrun.
  destruct (m s) as [[a | e] s1] eqn:Hms.
  - destruct (Hm _ _ _ Hms) as [Hn1 Hf1].
    destruct (Hk a _ _ Hms _ _ _ Hrun) as [Hn2 Hf2].
    split; [congruence |]. intros q Hq. rewrite Hf2, Hf1; auto.
  - inversion Hrun; subst. eapply Hm; eauto.
Qed.

Lemma touches_try {A} p (body : M A) (handler : exn -> M A) :
  touches_only p body -> (forall e, touches_only p (handler e)) ->
  touches_only p (try_except body handler).
Proof.
  intros Hb Hh s r s' Hrun. unfold try_except in Hrun.
  destruct (body s) as [[a | e] s1] eqn:Hbs.
  - inversion Hrun; subst. eapply Hb; eauto.
  - destruct (Hb _ _ _ Hbs) as [Hn1 Hf1].
    destruct (Hh e _ _ _ Hrun) as [Hn2 Hf2].
    split; [congruence |]. intros q Hq. rewrite Hf2, Hf1; auto.
Qed.

Lemma touches_if {A} p (b : bool) (m1 m2 : M A) :
  touches_only p m1 -> touches_only p m2 ->
  touches_only p (if b then m1 else m2).
Proof. now destruct b. Qed.

End Frames.

Ltac touch :=
  repeat first
    [ apply touches_ret | apply touches_raise | apply touches_lift
    | apply touches_time | apply touches_exists | apply touches_read
    | apply touches_write | apply touches_write_unchecked
    | apply touches_remove
    | apply touches_if
    | apply touches_bind; [| intros ?]
    | apply touches_try; [| intros ?] ].

Section ConverterFrames.
Context (E : Env).

Lemma touches_Image_save call p : touches_only p (Image_save E call p).
Proof. unfold Image_save. touch. Qed.

Lemma touches_convert_to_image conv p f :
  touches_only p (convert_to_image E conv p f).
Proof. unfold convert_to_image. touch; apply touches_Image_save. Qed.

Lemma touches_convert_to_svg conv p : touches_only p (convert_to_svg E conv p).
Proof. unfold convert_to_svg. touch. Qed.

Lemma touches_convert_to_pdf conv p : touches_only p (convert_to_pdf E conv p).
Proof. unfold convert_to_pdf. touch. Qed.

Lemma touches_convert_to_docx conv p : touches_only p (convert_to_docx E conv p).
Proof. unfold convert_to_docx. touch. Qed.

Lemma touches_init p path : touches_only p (ImageConverter_init E path).
Proof. unfold ImageConverter_init, Image_open_path. touch. Qed.

Lemma touches_convert_image request :
  touches_only
    (out_path_of (default "" (req_filename request))
                 (default "" (req_format request)))
    (convert_image E request).
Proof.
  unfold convert_image, out_path_of. cbv zeta.
  touch;
    first [ apply touches_init | apply touches_convert_to_image
          | apply touches_convert_to_svg | apply touches_convert_to_pdf
          | apply touches_convert_to_docx ].
Qed.

Lemma touches_upload_file uid request :
  touches_only
    (upload_path_of uid
       (default "" (fs_filename <$> file_part request)))
    (upload_file E uid request).
Proof.
  unfold upload_file. apply touches_bind_value.
  - unfold request_files. touch.
  - intros files s s' Hfiles.
    assert (files = file_part request) as ->.
    { unfold request_files in Hfiles.
      destruct (MAX_CONTENT_LENGTH <? content_length request);
        inversion Hfiles; reflexivity. }
    destruct (file_part request) as [file |]; [| touch].
    cbn [fmap option_fmap option_map default from_option id].
    unfold upload_path_of. touch; unfold Image_open_path; touch.
Qed.

Lemma dispatch_state (view : M Response) s r s' :
  dispatch view s = (r, s') -> exists r0, view s = (r0, s').
Proof.
  unfold dispatch. destruct (view s) as [[a | e] s1]; intros H.
  - inversion H; subst. eauto.
  - destruct e; inversion H; subst; eauto.
Qed.

End ConverterFrames.

(** X3.  A conversion request for a file name without "/", whatever else it
    asks for and however it ends, changes no file other than its own output
    path and leaves the clock alone: the source and every other upload and
    output stay as they were.  (Paths are taken as they are written; a name
    with "/" can reach other files through "..".) *)
Theorem convert_touches_only_output (E : Env) (request : ConvertRequest)
    (s s' : State) (r : Response) (q : string) :
  no_slash (default "" (req_filename request)) = true ->
  POST_convert E request s = (r, s') ->
  q <> out_path_of (default "" (req_filename request))
                   (default "" (req_format request)) ->
  fs s' !! q = fs s !! q /\ now s' = now s.
Proof.
  intros _ Hrun Hq. apply dispatch_state in Hrun as (r0 & Hrun).
  destruct (touches_convert_image E request _ _ _ Hrun) as [Hnow Hfs].
  split; [now apply Hfs | exact Hnow].
Qed.

Lemma convert_touches_only_output_witness :
  let s := Demo.state [("uploads/a.png", Demo.stored)] 100 in
  fs (POST_convert Demo.env (mkConvert (Some "a.png") (Some "svg")) s).2
    !! "uploads/a.png" = Some Demo.stored.
Proof.
  intros s.
  refine (eq_trans (proj1 (convert_touches_only_output Demo.env
            (mkConvert (Some "a.png") (Some "svg")) s _ _ "uploads/a.png"
            eq_refl (surjective_pairing _) _)) _).
  - vm_compute. discriminate.
  - vm_compute. reflexivity.
Defined.

(** X4.  An upload, however it ends, changes no file other than the path
    it stores the part under. *)
Theorem upload_touches_only_its_path (E : Env) (uid : string)
    (request : UploadRequest) (s s' : State) (r : Response) (q : string) :
  POST_upload E uid request s = (r, s') ->
  q <> upload_path_of uid (default "" (fs_filename <$> file_part request)) ->
  fs s' !! q = fs s !! q /\ now s' = now s.
Proof.
  intros Hrun Hq. apply dispatch_state in Hrun as (r0 & Hrun).
  destruct (touches_upload_file E uid request _ _ _ Hrun) as [Hnow Hfs].
  split; [now apply Hfs | exact Hnow].
Qed.

Lemma upload_touches_only_its_path_witness :
  let s := Demo.state [("outputs/a.svg", Demo.text)] 100 in
  fs (POST_upload Demo.env "3f2a"
        (mkUpload 200 (Some (mkFile "b.png" Demo.stored))) s).2
    !! "outputs/a.svg" = Some Demo.text.
Proof.
  intros s.
  refine (eq_trans (proj1 (upload_touches_only_its_path Demo.env "3f2a"
            (mkUpload 200 (Some (mkFile "b.png" Demo.stored))) s _ _
            "outputs/a.svg" (surjective_pairing _) _)) _).
  - vm_compute. discriminate.
  - vm_compute. reflexivity.
Defined.


(** ** Uploads: the other outcomes *)

Section UploadOutcomes.
Context (E : Env).

Lemma request_files_ok request s :
  content_length request <= MAX_CONTENT_LENGTH ->
  request_files request s = (Ok (file_part request), s).
Proof.
  intros Hlen. unfold request_files.
  now rewrite (proj2 (Z.ltb_ge _ _) Hlen).
Qed.

Lemma upload_begins request file uid s :
  content_length request <= MAX_CONTENT_LENGTH ->
  file_part request = Some file ->
  allowed_file (fs_filename file) = true ->
  upload_file E uid request s =
    (_ ← os.write_file (upload_path_of uid (fs_filename file)) (stream file);
     try_except
       (img ← Image_open_path E (upload_path_of uid (fs_filename file));
        mret (JObj [("filename",
                     JStr (uid ++ "." ++
                           lower (default "" (rsplit_dot (fs_filename file)).2)));
                    ("original_name", JStr (fs_filename file));
                    ("size", JArr [JNum (size img).1; JNum (size img).2]);
                    ("format", opt_str (format img));
                    ("mode", JStr (mode img))], 200))
       (fun e =>
          _ ← os.remove (upload_path_of uid (fs_filename file));
          mret (error_body ("Invalid image: " ++ str e), 400))) s.
Proof.
  intros Hlen Hpart Hallowed.
  destruct (allowed_file_inv _ Hallowed) as (Htruthy & Hne & _).
  unfold upload_file.
  rewrite (bind_ok _ _ _ _ _ (request_files_ok request s Hlen)), Hpart.
  now rewrite Hne, Htruthy, Hallowed.
Qed.

End UploadOutcomes.

(** X5.  An upload within the size limit that has no part named 'file', a
    part with an empty file name, or a file name that [allowed_file] turns
    down is answered 400 with 'No file part', 'No file selected' or
    'Invalid file type', and nothing is stored. *)
Theorem upload_rejected_before_storing (E : Env) (uid : string)
    (request : UploadRequest) (s : State) :
  content_length request <= MAX_CONTENT_LENGTH ->
  (file_part request = None ->
     POST_upload E uid request s = (error_body "No file part", 400, s)) /\
  (forall file, file_part request = Some file -> fs_filename file = "" ->
     POST_upload E uid request s = (error_body "No file selected", 400, s)) /\
  (forall file, file_part request = Some file -> fs_filename file <> "" ->
     allowed_file (fs_filename file) = false ->
     POST_upload E uid request s = (error_body "Invalid file type", 400, s)).
Proof.
  intros Hlen.
  pose proof (request_files_ok request s Hlen) as Hfiles.
  unfold POST_upload, dispatch, upload_file.
  rewrite (bind_ok _ _ _ _ _ Hfiles).
  split; [| split].
  - intros ->. reflexivity.
  - intros file -> ->. reflexivity.
  - intros file -> Hname Hbad.
    rewrite (proj2 (String.eqb_neq _ _) Hname), Hbad, andb_false_r. reflexivity.
Qed.

Lemma upload_rejected_before_storing_witness :
  POST_upload Demo.env "3f2a" (mkUpload 200 (Some (mkFile "notes.txt" Demo.text)))
    (Demo.state [] 100) =
  (error_body "Invalid file type", 400, Demo.state [] 100).
Proof.
  refine (proj2 (proj2 (upload_rejected_before_storing Demo.env "3f2a"
            (mkUpload 200 (Some (mkFile "notes.txt" Demo.text)))
            (Demo.state [] 100) _)) _ eq_refl _ eq_refl).
  - vm_compute. discriminate.
  - discriminate.
Defined.

(** The run of an upload whose bytes decode. *)
Lemma upload_valid_run (E : Env) (uid : string)
    (request : UploadRequest) (file : FileStorage) (img : Image) (s : State) :
  let path := upload_path_of uid (fs_filename file) in
  content_length request <= MAX_CONTENT_LENGTH ->
  file_part request = Some file ->
  allowed_file (fs_filename file) = true ->
  (length (stream file) <= free s + os.size_at s path)%nat ->
  Image_open E (stream file) = Ok img ->
  exists s',
    POST_upload E uid request s =
      (JObj [("filename",
              JStr (uid ++ "." ++
                    lower (default "" (rsplit_dot (fs_filename file)).2)));
             ("original_name", JStr (fs_filename file));
             ("size", JArr [JNum (size img).1; JNum (size img).2]);
             ("format", opt_str (format img));
             ("mode", JStr (mode img))], 200, s') /\
    fs s' = <[path := stream file]> (fs s) /\
    now s' = now s.
Proof.
  intros path Hlen Hpart Hallowed Hroom Hgood.
  eexists. split.
  - unfold POST_upload, dispatch.
    rewrite (upload_begins E request file uid s Hlen Hpart Hallowed). fold path.
    rewrite (bind_ok _ _ _ _ _ (write_file_ok _ _ _ Hroom)).
    unfold try_except, Image_open_path.
    erewrite bind_ok.
    2:{ erewrite bind_ok.
        2:{ unfold os.read_file. cbn [fs]. rewrite lookup_insert_eq. reflexivity. }
        unfold lift. rewrite Hgood. reflexivity. }
    reflexivity.
  - split; reflexivity.
Qed.

(** X6.  An upload with an allowed extension whose bytes decode is answered
    200 with the stored name (identifier and lower-cased extension), the
    original name, and the size, format and mode of the image; the file
    system then holds exactly the uploaded bytes under the storage path. *)
Theorem upload_stores_valid_image (E : Env) (uid : string)
    (request : UploadRequest) (file : FileStorage) (img : Image) (s : State) :
  let path := upload_path_of uid (fs_filename file) in
  content_length request <= MAX_CONTENT_LENGTH ->
  file_part request = Some file ->
  allowed_file (fs_filename file) = true ->
  (length (stream file) <= free s + os.size_at s path)%nat ->
  Image_open E (stream file) = Ok img ->
  exists s',
    POST_upload E uid request s =
      (JObj [("filename",
              JStr (uid ++ "." ++
                    lower (default "" (rsplit_dot (fs_filename file)).2)));
             ("original_name", JStr (fs_filename file));
             ("size", JArr [JNum (size img).1; JNum (size img).2]);
             ("format", opt_str (format img));
             ("mode", JStr (mode img))], 200, s') /\
    fs s' = <[path := stream file]> (fs s) /\
    now s' = now s.
Proof. exact (upload_valid_run E uid request file img s). Qed.

Lemma upload_stores_valid_image_witness :
  exists s',
    POST_upload Demo.env "3f2a"
      (mkUpload 200 (Some (mkFile "Photo.PNG" Demo.stored))) (Demo.state [] 100) =
      (JObj [("filename", JStr "3f2a.png");
             ("original_name", JStr "Photo.PNG");
             ("size", JArr [JNum 200; JNum 100]);
             ("format", JStr "PNG");
             ("mode", JStr "RGB")], 200, s') /\
    fs s' !! "uploads/3f2a.png" = Some Demo.stored.
Proof.
  destruct (upload_stores_valid_image Demo.env "3f2a"
              (mkUpload 200 (Some (mkFile "Photo.PNG" Demo.stored)))
              (mkFile "Photo.PNG" Demo.stored)
              (mkImage (Some "PNG") "RGB" (200, 100) [] [])
              (Demo.state [] 100))
    as (s' & Hrun & Hfs & _).
  - vm_compute. discriminate.
  - reflexivity.
  - reflexivity.
  - cbn. lia.
  - reflexivity.
  - exists s'. split; [exact Hrun |]. rewrite Hfs. apply lookup_insert_eq.
Defined.

(** X7.  When the device has no room for the whole upload, the write of
    line 112 raises outside the [try]: the request ends in the generic 500
    answer, and the part of the file that was written stays under the
    storage path. *)
Theorem upload_without_room_leaves_fragment (E : Env) (uid : string)
    (request : UploadRequest) (file : FileStorage) (s : State) :
  let path := upload_path_of uid (fs_filename file) in
  let room := (free s + os.size_at s path)%nat in
  content_length request <= MAX_CONTENT_LENGTH ->
  file_part request = Some file ->
  allowed_file (fs_filename file) = true ->
  (room < length (stream file))%nat ->
  exists s',
    POST_upload E uid request s = (JStr "Internal Server Error", 500, s') /\
    fs s' !! path = Some (take room (stream file)).
Proof.
  intros path room Hlen Hpart Hallowed Hroom.
  eexists. split.
  - unfold POST_upload, dispatch.
    rewrite (upload_begins E request file uid s Hlen Hpart Hallowed). fold path.
    rewrite (bind_raise _ _ _ _ _ (write_file_full _ _ _ Hroom)).
    reflexivity.
  - cbn [fs]. apply lookup_insert_eq.
Qed.

Lemma upload_without_room_leaves_fragment_witness :
  exists s',
    POST_upload Demo.env "3f2a"
      (mkUpload 200 (Some (mkFile "notes.png" Demo.text))) (Demo.state [] 3) =
      (JStr "Internal Server Error", 500, s') /\
    fs s' !! "uploads/3f2a.png" = Some (take 3 Demo.text).
Proof.
  apply (upload_without_room_leaves_fragment Demo.env "3f2a"
           (mkUpload 200 (Some (mkFile "notes.png" Demo.text)))
           (mkFile "notes.png" Demo.text) (Demo.state [] 3)).
  - vm_compute. discriminate.
  - reflexivity.
  - reflexivity.
  - vm_compute. lia.
Defined.


(** ** Folder entries *)

Section Entries.
Import Listing.

Lemma append_assoc (a b c : string) : (a ++ b) ++ c = a ++ (b ++ c).
Proof.
  induction a as [| x a IH]; [reflexivity |].
  change ((String x a ++ b) ++ c) with (String x ((a ++ b) ++ c)).
  now rewrite IH.
Qed.

Lemma strip_prefix_app pre rest : strip_prefix pre (pre ++ rest) = Some rest.
Proof.
  induction pre as [| c pre IH]; [reflexivity |].
  change (String c pre ++ rest) with (String c (pre ++ rest)).
  cbn [strip_prefix]. now rewrite Ascii.eqb_refl.
Qed.

Lemma strip_prefix_inv pre s rest :
  strip_prefix pre s = Some rest -> s = pre ++ rest.
Proof.
  revert s. induction pre as [| c pre IH]; intros s H.
  - cbn in H. now injection H as ->.
  - destruct s as [| d s]; [discriminate H |]. cbn [strip_prefix] in H.
    destruct (Ascii.eqb c d) eqn:Hcd; [| discriminate H].
    apply Ascii.eqb_eq in Hcd. subst d.
    change (String c pre ++ rest) with (String c (pre ++ rest)).
    now rewrite (IH s H).
Qed.

Lemma first_component_idem s :
  first_component (first_component s) = first_component s.
Proof.
  induction s as [| c s IH]; [reflexivity |].
  cbn [first_component]. destruct (Ascii.eqb c "/") eqn:Hc; [reflexivity |].
  cbn [first_component]. now rewrite Hc, IH.
Qed.

(** A name without "/" is joined to the folder as it is. *)
Lemma path_join_name folder name :
  first_component name = name -> os.path_join folder name = folder ++ "/" ++ name.
Proof.
  intros Hname. unfold os.path_join.
  destruct name as [| c name]; [reflexivity |].
  destruct (Ascii.eqb c "/") eqn:Hc.
  - cbn [first_component] in Hname. rewrite Hc in Hname. discriminate Hname.
  - destruct c as [[] [] [] [] [] [] [] []]; try reflexivity. discriminate Hc.
Qed.

Lemma child_of_join folder name :
  first_component name = name -> child_of folder (os.path_join folder name) = true.
Proof.
  intros Hname. rewrite (path_join_name folder name Hname). unfold child_of.
  change (folder ++ "/" ++ name) with (folder ++ ("/" ++ name)).
  rewrite <- append_assoc, strip_prefix_app, Hname. apply String.eqb_refl.
Qed.

Lemma child_of_inv folder p :
  child_of folder p = true ->
  exists name, first_component name = name /\ p = os.path_join folder name /\
               entry_of folder p = Some name.
Proof.
  unfold child_of, entry_of. intros H.
  destruct (strip_prefix (folder ++ "/") p) as [rest |] eqn:Hs; [| discriminate H].
  apply String.eqb_eq in H. exists rest. split; [exact H |]. split.
  - rewrite (path_join_name folder rest H).
    apply strip_prefix_inv in Hs. rewrite Hs. now rewrite append_assoc.
  - cbn. now rewrite H.
Qed.

(** The listing of a folder names every file directly inside it, and every
    listed name joined to the folder is a path directly inside it. *)
Lemma listdir_run folder s :
  exists names,
    listdir folder s = (Ok names, s) /\
    (forall p, is_Some (fs s !! p) -> child_of folder p = true ->
               p ∈ (os.path_join folder <$> names)) /\
    (forall p, p ∈ (os.path_join folder <$> names) -> child_of folder p = true).
Proof.
  eexists. split; [reflexivity |]. split.
  - intros p [b Hb] Hchild.
    destruct (child_of_inv folder p Hchild) as (name & Hname & Hp & Hentry).
    apply list_elem_of_fmap. exists name. split; [exact Hp |].
    apply elem_of_remove_dups. apply list_elem_of_omap. exists p.
    split; [| exact Hentry].
    apply list_elem_of_fmap. exists (p, b). split; [reflexivity |].
    now apply elem_of_map_to_list.
  - intros p Hin. apply list_elem_of_fmap in Hin as (name & -> & Hin).
    apply (proj1 (elem_of_remove_dups _ _)) in Hin.
    apply list_elem_of_omap in Hin as (k & _ & Hentry).
    apply child_of_join. unfold entry_of in Hentry.
    destruct (strip_prefix (folder ++ "/") k) as [rest |]; [| discriminate Hentry].
    cbn in Hentry. injection Hentry as <-. apply first_component_idem.
Qed.

Lemma plain_name_inv name :
  plain_name name = true -> first_component name = name /\ name <> "".
Proof.
  unfold plain_name, no_slash. intros H.
  apply andb_prop in H as [H _]. apply andb_prop in H as [H _].
  apply andb_prop in H as [H1 H2]. apply String.eqb_eq in H1.
  split; [exact H1 |]. intros ->. discriminate H2.
Qed.

(** A plain name that the folder does not list names no file in it. *)
Lemma not_listed_absent folder name s :
  plain_name name = true -> ~ listed folder name s ->
  fs s !! os.path_join folder name = None.
Proof.
  intros Hplain Hnot. apply plain_name_inv in Hplain as [Hname _].
  destruct (fs s !! os.path_join folder name) as [b |] eqn:Hb; [| reflexivity].
  exfalso. apply Hnot. eexists. split; [reflexivity |].
  apply elem_of_remove_dups. apply list_elem_of_omap.
  exists (os.path_join folder name). split.
  - apply list_elem_of_fmap. exists (os.path_join folder name, b).
    split; [reflexivity |]. now apply elem_of_map_to_list.
  - rewrite (path_join_name folder name Hname). unfold entry_of.
    change (folder ++ "/" ++ name) with (folder ++ ("/" ++ name)).
    rewrite <- append_assoc, strip_prefix_app. cbn. now rewrite Hname.
Qed.

End Entries.

(** ** Conversions: the other outcomes *)



Section ConvertRuns.
Context (E : Env).

Lemma size_at_written p (bs : bytes) (m : gmap string bytes) n t :
  os.size_at {| fs := <[p := bs]> m; free := n; now := t |} p = length bs.
Proof. unfold os.size_at. cbn [fs]. now rewrite lookup_insert_eq. Qed.

Lemma Image_save_run call p bs s :
  encode E call = Ok bs ->
  (length bs <= free s + os.size_at s p)%nat ->
  exists s',
    Image_save E call p s = (Ok tt, s') /\
    fs s' = <[p := bs]> (fs s) /\ now s' = now s.
Proof.
  intros Henc Hroom. unfold Image_save.
  erewrite bind_ok by (unfold os.path_exists; reflexivity).
  erewrite bind_ok by (apply write_file_ok; cbn; lia).
  erewrite bind_ok by (unfold try_except, lift; rewrite Henc; reflexivity).
  destruct (sc_format call =? "JPEG")%string.
  - unfold os.write_unchecked. rewrite size_at_written. cbn [free fs now length].
    rewrite take_ge by lia.
    eexists. split; [reflexivity |]. cbn [fs now].
    split; [apply insert_insert_eq | reflexivity].
  - rewrite write_file_ok.
    + eexists. split; [reflexivity |]. cbn [fs now].
      split; [apply insert_insert_eq | reflexivity].
    + rewrite size_at_written. cbn [free length]. lia.
Qed.

Lemma convert_to_image_run conv p f call bs s :
  image_save_call (image conv) f = Ok call ->
  encode E call = Ok bs ->
  (length bs <= free s + os.size_at s p)%nat ->
  exists s',
    convert_to_image E conv p f s = (Ok tt, s') /\
    fs s' = <[p := bs]> (fs s) /\ now s' = now s.
Proof.
  intros Hcall Henc Hroom. unfold convert_to_image.
  erewrite bind_ok by (unfold lift; rewrite Hcall; reflexivity).
  now apply Image_save_run.
Qed.

Lemma convert_to_svg_run conv p png s :
  png_buffer E (image conv) = Ok png ->
  (length (svg_tostring E (svg_drawing (image conv) p png))
     <= free s + os.size_at s p)%nat ->
  exists s',
    convert_to_svg E conv p s = (Ok tt, s') /\
    fs s' = <[p := svg_tostring E (svg_drawing (image conv) p png)]> (fs s) /\
    now s' = now s.
Proof.
  intros Hpng Hroom. unfold convert_to_svg.
  erewrite bind_ok by (unfold lift; rewrite Hpng; reflexivity).
  rewrite (write_file_ok _ _ _ Hroom). eexists. repeat split.
Qed.

Lemma result_bind_inv {A B} (r : result A) (k : A -> result B) b :
  r ≫= k = Ok b -> exists a, r = Ok a /\ k a = Ok b.
Proof. destruct r as [a | e]; [eauto | discriminate]. Qed.

(** The format dispatch of [convert_image], once the source is open. *)
Lemma dispatch_run conv out fmt_upper out_name bs s :
  conversion_output E (now s) (image conv) out fmt_upper = Ok bs ->
  (length bs <= free s + os.size_at s out)%nat ->
  let reply : M Response := mret (success_body out_name, 200) in
  exists s',
    (if mem fmt_upper ["JPG"; "JPEG"] then
       _ ← convert_to_image E conv out "JPEG"; reply
     else if String.eqb fmt_upper "PNG" then
       _ ← convert_to_image E conv out "PNG"; reply
     else if String.eqb fmt_upper "SVG" then
       _ ← convert_to_svg E conv out; reply
     else if String.eqb fmt_upper "PDF" then
       _ ← convert_to_pdf E conv out; reply
     else if String.eqb fmt_upper "DOCX" then
       _ ← convert_to_docx E conv out; reply
     else mret (error_body "Unsupported format", 400)) s
    = (Ok (success_body out_name, 200), s') /\
    fs s' = <[out := bs]> (fs s) /\ now s' = now s.
Proof.
  unfold conversion_output. intros Hout Hroom. cbv zeta.
  destruct (mem fmt_upper ["JPG"; "JPEG"]).
  { apply result_bind_inv in Hout as (call & Hcall & Henc).
    destruct (convert_to_image_run conv out "JPEG" call bs s Hcall Henc Hroom)
      as (s' & Hrun & Hfs & Hnow).
    exists s'. rewrite (bind_ok _ _ _ _ _ Hrun). auto. }
  destruct (fmt_upper =? "PNG")%string.
  { apply result_bind_inv in Hout as (call & Hcall & Henc).
    destruct (convert_to_image_run conv out "PNG" call bs s Hcall Henc Hroom)
      as (s' & Hrun & Hfs & Hnow).
    exists s'. rewrite (bind_ok _ _ _ _ _ Hrun). auto. }
  destruct (fmt_upper =? "SVG")%string.
  { apply result_bind_inv in Hout as (png & Hpng & Hbs).
    injection Hbs as <-.
    destruct (convert_to_svg_run conv out png s Hpng Hroom)
      as (s' & Hrun & Hfs & Hnow).
    exists s'. rewrite (bind_ok _ _ _ _ _ Hrun). auto. }
  destruct (fmt_upper =? "PDF")%string.
  { apply result_bind_inv in Hout as (c & Hc & Hbs).
    injection Hbs as <-.
    destruct (convert_to_pdf_run E conv out c s Hc Hroom) as (s' & Hrun & Hfs).
    exists s'. rewrite (bind_ok _ _ _ _ _ Hrun).
    split; [reflexivity |]. split; [exact Hfs |].
    apply convert_to_pdf_ok in Hrun as (_ & _ & _ & Hnow). exact Hnow. }
  destruct (fmt_upper =? "DOCX")%string.
  { apply result_bind_inv in Hout as (d & Hd & Hbs).
    injection Hbs as <-.
    destruct (convert_to_docx_run E conv out d s Hd Hroom) as (s' & Hrun & Hfs).
    exists s'. rewrite (bind_ok _ _ _ _ _ Hrun).
    split; [reflexivity |]. split; [exact Hfs |].
    apply convert_to_docx_ok in Hrun as (_ & _ & _ & Hnow). exact Hnow. }
  discriminate Hout.
Qed.

End ConvertRuns.

(** The run of a conversion that goes through. *)
Lemma convert_run (E : Env) (request : ConvertRequest)
    (filename fmt : string) (src : bytes) (im : Image) (out : bytes)
    (s : State) :
  let out_name := (rsplit_dot filename).1 ++ "." ++ lower fmt in
  req_filename request = Some filename ->
  req_format request = Some fmt ->
  filename <> "" ->
  fs s !! in_path_of filename = Some src ->
  Image_open E src = Ok im ->
  conversion_output E (now s) im (out_path_of filename fmt) (upper fmt) = Ok out ->
  (length out <= free s + os.size_at s (out_path_of filename fmt))%nat ->
  exists s',
    POST_convert E request s =
      (JObj [("success", JBool true);
             ("download_url", JStr ("/download/" ++ out_name));
             ("filename", JStr out_name)], 200, s') /\
    fs s' = <[out_path_of filename fmt := out]> (fs s) /\
    now s' = now s.
Proof.
  intros out_name Hname Hfmt Hn Hsrc Him Hout Hroom.
  assert (Hf : fmt <> "").
  { intros ->. discriminate Hout. }
  destruct filename as [| c1 f]; [contradiction |].
  destruct fmt as [| c2 g]; [contradiction |].
  set (filename := String c1 f) in *. set (fmt := String c2 g) in *.
  destruct (dispatch_run E (mkConverter (in_path_of filename) im)
              (out_path_of filename fmt) (upper fmt) out_name out s Hout Hroom)
    as (s' & Hrun & Hfs & Hnow).
  exists s'. split; [| split; assumption].
  unfold POST_convert, dispatch, convert_image. rewrite Hname, Hfmt.
  cbn [default from_option id]. change (truthy filename) with true.
  change (truthy fmt) with true. cbn [negb orb].
  unfold in_path_of, out_path_of, success_body, out_name in *.
  cbv zeta in Hrun |- *.
  erewrite bind_ok
    by (unfold os.path_exists; rewrite bool_decide_eq_true_2 by eauto;
        reflexivity).
  cbn [negb]. unfold try_except.
  erewrite bind_ok
    by (rewrite ImageConverter_init_run, Hsrc, Him; reflexivity).
  rewrite Hrun. reflexivity.
Qed.

(** X9.  A conversion goes through whenever the source is there and
    decodes, the libraries produce the bytes of the target format and the
    device has room for them: the answer is 200 with the download URL
    '/download/<stem>.<format in lower case>', and the output path holds
    exactly those bytes. *)
Theorem convert_writes_output (E : Env) (request : ConvertRequest)
    (filename fmt : string) (src : bytes) (im : Image) (out : bytes)
    (s : State) :
  let out_name := (rsplit_dot filename).1 ++ "." ++ lower fmt in
  req_filename request = Some filename ->
  req_format request = Some fmt ->
  filename <> "" ->
  fs s !! in_path_of filename = Some src ->
  Image_open E src = Ok im ->
  conversion_output E (now s) im (out_path_of filename fmt) (upper fmt) = Ok out ->
  (length out <= free s + os.size_at s (out_path_of filename fmt))%nat ->
  exists s',
    POST_convert E request s =
      (JObj [("success", JBool true);
             ("download_url", JStr ("/download/" ++ out_name));
             ("filename", JStr out_name)], 200, s') /\
    fs s' = <[out_path_of filename fmt := out]> (fs s) /\
    now s' = now s.
Proof. exact (convert_run E request filename fmt src im out s). Qed.

Lemma convert_writes_output_witness :
  exists s',
    POST_convert Demo.env (mkConvert (Some "a.png") (Some "PNG"))
      (Demo.state [("uploads/a.png", Demo.stored)] 100) =
      (JObj [("success", JBool true);
             ("download_url", JStr "/download/a.png");
             ("filename", JStr "a.png")], 200, s') /\
    fs s' !! "outputs/a.png" = Some Demo.stored.
Proof.
  destruct (convert_writes_output Demo.env
              (mkConvert (Some "a.png") (Some "PNG")) "a.png" "PNG"
              Demo.stored (mkImage (Some "PNG") "RGB" (200, 100) [] [])
              Demo.stored
              (Demo.state [("uploads/a.png", Demo.stored)] 100))
    as (s' & Hrun & Hfs & _).
  - reflexivity.
  - reflexivity.
  - discriminate.
  - vm_compute. reflexivity.
  - reflexivity.
  - reflexivity.
  - vm_compute. lia.
  - exists s'. split; [exact Hrun |]. rewrite Hfs. apply lookup_insert_eq.
Defined.


(** ** The case of the format *)

Section FormatCase.

Lemma lower_ascii_idem c : lower_ascii (lower_ascii c) = lower_ascii c.
Proof. destruct c as [[] [] [] [] [] [] [] []]; reflexivity. Qed.

Lemma upper_lower_ascii c : upper_ascii (lower_ascii c) = upper_ascii c.
Proof. destruct c as [[] [] [] [] [] [] [] []]; reflexivity. Qed.

Lemma lower_idem s : lower (lower s) = lower s.
Proof.
  induction s as [| c s IH]; [reflexivity |].
  cbn [lower]. now rewrite lower_ascii_idem, IH.
Qed.

Lemma upper_lower s : upper (lower s) = upper s.
Proof.
  induction s as [| c s IH]; [reflexivity |].
  cbn [lower upper]. now rewrite upper_lower_ascii, IH.
Qed.

Lemma truthy_lower s : truthy (lower s) = truthy s.
Proof. now destruct s. Qed.

End FormatCase.

(** X10.  The case of the format string plays no part: two requests for
    the same file whose formats are equal up to the case of their letters
    get the same answer and leave the same state, output file name
    included. *)
Theorem convert_ignores_case (E : Env) (filename : option string)
    (fmt1 fmt2 : string) (s : State) :
  lower fmt1 = lower fmt2 ->
  POST_convert E (mkConvert filename (Some fmt1)) s =
  POST_convert E (mkConvert filename (Some fmt2)) s.
Proof.
  intros Hcase.
  assert (Hup : upper fmt1 = upper fmt2).
  { rewrite <- (upper_lower fmt1), <- (upper_lower fmt2). now rewrite Hcase. }
  assert (Htr : truthy fmt1 = truthy fmt2).
  { rewrite <- (truthy_lower fmt1), <- (truthy_lower fmt2). now rewrite Hcase. }
  unfold POST_convert, convert_image.
  cbn [req_filename req_format default from_option id].
  now rewrite Hcase, Hup, Htr.
Qed.

Lemma convert_ignores_case_witness :
  let s := Demo.state [("uploads/a.png", Demo.stored)] 100 in
  POST_convert Demo.env (mkConvert (Some "a.png") (Some "Svg")) s =
  POST_convert Demo.env (mkConvert (Some "a.png") (Some "sVG")) s.
Proof. intros s. apply convert_ignores_case. reflexivity. Defined.

(** ** Download *)

Lemma download_present (filename : string) (body : bytes) (s : State) :
  fs s !! os.path_join OUTPUT_FOLDER filename = Some body ->
  download_file filename s = (Ok (Attachment body filename), s).
Proof.
  intros Hbody.
  unfold download_file, os.path_exists, os.read_file, mbind, M_bind.
  cbv beta zeta. rewrite Hbody.
  rewrite bool_decide_eq_true_2 by eauto. cbv beta iota. now rewrite Hbody.
Qed.

(** X11.  What a successful conversion announces can be fetched.  When the
    source is there and decodes, the libraries produce the bytes of the
    target format and the device has room for them, the request is
    answered 200 with a file name, and a download of that name returns an
    attachment of that name holding exactly those bytes; the download
    changes nothing. *)
Theorem download_after_convert (E : Env) (request : ConvertRequest)
    (filename fmt : string) (src : bytes) (im : Image) (out : bytes)
    (s : State) :
  let out_name := (rsplit_dot filename).1 ++ "." ++ lower fmt in
  req_filename request = Some filename ->
  req_format request = Some fmt ->
  filename <> "" ->
  fs s !! in_path_of filename = Some src ->
  Image_open E src = Ok im ->
  conversion_output E (now s) im (out_path_of filename fmt) (upper fmt) = Ok out ->
  (length out <= free s + os.size_at s (out_path_of filename fmt))%nat ->
  exists s',
    POST_convert E request s = (success_body out_name, 200, s') /\
    download_file out_name s' = (Ok (Attachment out out_name), s').
Proof.
  intros out_name Hname Hfmt Hn Hsrc Him Hout Hroom.
  destruct (convert_run E request filename fmt src im out s
              Hname Hfmt Hn Hsrc Him Hout Hroom) as (s' & Hrun & Hfs & _).
  exists s'. split; [exact Hrun |].
  apply download_present. rewrite Hfs. apply lookup_insert_eq.
Qed.

Lemma download_after_convert_witness :
  exists s',
    POST_convert Demo.env (mkConvert (Some "a.png") (Some "JPG"))
      (Demo.state [("uploads/a.png", Demo.stored)] 100) =
      (success_body "a.jpg", 200, s') /\
    download_file "a.jpg" s' = (Ok (Attachment Demo.stored "a.jpg"), s').
Proof.
  refine (download_after_convert Demo.env
            (mkConvert (Some "a.png") (Some "JPG")) "a.png" "JPG"
            Demo.stored (mkImage (Some "PNG") "RGB" (200, 100) [] [])
            Demo.stored
            (Demo.state [("uploads/a.png", Demo.stored)] 100)
            _ _ _ _ _ _ _);
    first [ reflexivity | discriminate | (vm_compute; reflexivity)
          | (vm_compute; lia) ].
Defined.

(** X12.  A download of a plain file name that the output folder does not
    list is answered 'File not found' with status 404; a download of a path
    that names a file returns the bytes of the file as an attachment under
    the requested name.  Neither changes the state. *)
Theorem download_missing_or_present (filename : string) (s : State) :
  (plain_name filename = true -> ~ listed OUTPUT_FOLDER filename s ->
     download_file filename s = (Ok (Plain "File not found" 404), s)) /\
  (forall body, fs s !! os.path_join OUTPUT_FOLDER filename = Some body ->
     download_file filename s = (Ok (Attachment body filename), s)).
Proof.
  split.
  - intros Hplain Hnot.
    pose proof (not_listed_absent OUTPUT_FOLDER filename s Hplain Hnot)
      as Hnone.
    unfold download_file, os.path_exists, os.read_file, mbind, M_bind.
    cbv beta zeta. rewrite Hnone.
    rewrite bool_decide_eq_false_2 by (intros [? ?]; discriminate). reflexivity.
  - intros body Hbody. now apply download_present.
Qed.

Lemma download_missing_or_present_witness :
  let s := Demo.state [("outputs/a.pdf", Demo.text)] 0 in
  download_file "gone.pdf" s = (Ok (Plain "File not found" 404), s) /\
  download_file "a.pdf" s = (Ok (Attachment Demo.text "a.pdf"), s).
Proof.
  intros s. split.
  - refine (proj1 (download_missing_or_present "gone.pdf" s) eq_refl _).
    intros (names & Hlist & Hin). vm_compute in Hlist.
    injection Hlist as <-. apply list_elem_of_singleton in Hin.
    discriminate Hin.
  - refine (proj2 (download_missing_or_present "a.pdf" s) Demo.text _).
    vm_compute. reflexivity.
Defined.

(** ** Upload, then convert *)

(** X13.  The name that a successful upload returns is the name to convert:
    a conversion request with it finds the stored image, and when the
    libraries produce the bytes of the target format and there is room for
    them, it is answered 200 and the output path holds those bytes. *)
Theorem convert_after_upload (E : Env) (uid : string)
    (upload : UploadRequest) (file : FileStorage) (img : Image)
    (fmt : string) (out : bytes) (s : State) :
  let name := uid ++ "." ++ lower (default "" (rsplit_dot (fs_filename file)).2) in
  let s1 := (POST_upload E uid upload s).2 in
  content_length upload <= MAX_CONTENT_LENGTH ->
  file_part upload = Some file ->
  allowed_file (fs_filename file) = true ->
  (length (stream file)
     <= free s + os.size_at s (upload_path_of uid (fs_filename file)))%nat ->
  Image_open E (stream file) = Ok img ->
  conversion_output E (now s) img (out_path_of name fmt) (upper fmt) = Ok out ->
  (length out <= free s1 + os.size_at s1 (out_path_of name fmt))%nat ->
  exists s2,
    POST_convert E (mkConvert (Some name) (Some fmt)) s1 =
      (success_body ((rsplit_dot name).1 ++ "." ++ lower fmt), 200, s2) /\
    fs s2 !! out_path_of name fmt = Some out.
Proof.
  intros name s1 Hlen Hpart Hallowed Hroom Hgood Hout Hroom1.
  destruct (upload_valid_run E uid upload file img s
              Hlen Hpart Hallowed Hroom Hgood) as (s1' & Hup & Hfs1 & Hnow1).
  assert (Hs1 : s1 = s1') by (unfold s1; now rewrite Hup).
  rewrite Hs1 in *. rewrite <- Hnow1 in Hout.
  assert (Hname : name <> "").
  { unfold name. destruct uid; discriminate. }
  destruct (convert_run E (mkConvert (Some name) (Some fmt)) name fmt
              (stream file) img out s1' eq_refl eq_refl Hname)
    as (s2 & Hrun & Hfs2 & _); try assumption.
  - rewrite Hfs1. unfold in_path_of, upload_path_of. fold name.
    apply lookup_insert_eq.
  - exists s2. split; [exact Hrun |]. rewrite Hfs2. apply lookup_insert_eq.
Qed.

Lemma convert_after_upload_witness :
  let upload := mkUpload 200 (Some (mkFile "Photo.PNG" Demo.stored)) in
  let s1 := (POST_upload Demo.env "3f2a" upload (Demo.state [] 100)).2 in
  exists s2,
    POST_convert Demo.env (mkConvert (Some "3f2a.png") (Some "svg")) s1 =
      (success_body "3f2a.svg", 200, s2) /\
    fs s2 !! "outputs/3f2a.svg" =
      Some (String.list_byte_of_string "data:image/png;base64,yGQ=").
Proof.
  intros upload s1.
  apply (convert_after_upload Demo.env "3f2a" upload
           (mkFile "Photo.PNG" Demo.stored)
           (mkImage (Some "PNG") "RGB" (200, 100) [] []) "svg"
           (String.list_byte_of_string "data:image/png;base64,yGQ=")
           (Demo.state [] 100)).
  - vm_compute. discriminate.
  - reflexivity.
  - reflexivity.
  - vm_compute. lia.
  - reflexivity.
  - reflexivity.
  - vm_compute. lia.
Defined.


(** ** Conversions: a failing encoder *)

Section EncoderFailure.
Context (E : Env).

(** [Image.save] with an encoder that raises: the file has been opened for
    writing by then, so an earlier file is left empty, and a file that
    [save] created itself is removed again. *)
Lemma Image_save_raise call p e s :
  encode E call = Raise e ->
  exists s',
    Image_save E call p s = (Raise e, s') /\ now s' = now s /\
    fs s' !! p = (fun _ => []) <$> fs s !! p /\
    forall q, q <> p -> fs s' !! q = fs s !! q.
Proof.
  intros Henc. unfold Image_save.
  erewrite bind_ok by (unfold os.path_exists; reflexivity).
  erewrite bind_ok by (apply write_file_ok; cbn; lia).
  destruct (fs s !! p) as [old |] eqn:Hp.
  - rewrite bool_decide_eq_true_2 by eauto.
    eexists. split.
    { apply bind_raise. unfold try_except, lift. rewrite Henc. reflexivity. }
    cbn [fs now fmap option_fmap option_map].
    split; [reflexivity |]. split; [apply lookup_insert_eq |].
    intros q Hq. now apply lookup_insert_ne.
  - rewrite bool_decide_eq_false_2 by (intros [? ?]; discriminate).
    eexists. split.
    { apply bind_raise. unfold try_except, lift. rewrite Henc.
      unfold mbind at 1, M_bind, os.remove. cbn [fs].
      rewrite lookup_insert_eq. reflexivity. }
    cbn [fs now fmap option_fmap option_map].
    split; [reflexivity |]. split; [apply lookup_delete_eq |].
    intros q Hq. rewrite lookup_delete_ne by congruence.
    now apply lookup_insert_ne.
Qed.

Lemma convert_to_image_raise conv p f call e s :
  image_save_call (image conv) f = Ok call ->
  encode E call = Raise e ->
  exists s',
    convert_to_image E conv p f s = (Raise e, s') /\ now s' = now s /\
    fs s' !! p = (fun _ => []) <$> fs s !! p /\
    forall q, q <> p -> fs s' !! q = fs s !! q.
Proof.
  intros Hcall Henc. unfold convert_to_image.
  erewrite bind_ok by (unfold lift; rewrite Hcall; reflexivity).
  now apply Image_save_raise.
Qed.

(** The three document writers encode the image as PNG before anything
    else; when that raises they have written nothing. *)
Lemma document_writers_raise conv p e s :
  png_buffer E (image conv) = Raise e ->
  convert_to_svg E conv p s = (Raise e, s) /\
  convert_to_pdf E conv p s = (Raise e, s) /\
  convert_to_docx E conv p s = (Raise e, s).
Proof.
  intros Hpng. split; [| split].
  - unfold convert_to_svg. apply bind_raise. unfold lift. now rewrite Hpng.
  - unfold convert_to_pdf. apply bind_raise. unfold lift, pdf_canvas.
    now rewrite Hpng.
  - unfold convert_to_docx. apply bind_raise. unfold lift, docx_document.
    now rewrite Hpng.
Qed.

(** The start of a conversion whose source is there and decodes. *)
Lemma convert_image_opened request filename fmt src im s :
  req_filename request = Some filename ->
  req_format request = Some fmt ->
  filename <> "" -> fmt <> "" ->
  fs s !! in_path_of filename = Some src ->
  Image_open E src = Ok im ->
  let conv := mkConverter (in_path_of filename) im in
  let out_name := (rsplit_dot filename).1 ++ "." ++ lower fmt in
  let out := out_path_of filename fmt in
  let reply : M Response := mret (success_body out_name, 200) in
  POST_convert E request s =
    dispatch
      (try_except
         (if mem (upper fmt) ["JPG"; "JPEG"] then
            _ ← convert_to_image E conv out "JPEG"; reply
          else if String.eqb (upper fmt) "PNG" then
            _ ← convert_to_image E conv out "PNG"; reply
          else if String.eqb (upper fmt) "SVG" then
            _ ← convert_to_svg E conv out; reply
          else if String.eqb (upper fmt) "PDF" then
            _ ← convert_to_pdf E conv out; reply
          else if String.eqb (upper fmt) "DOCX" then
            _ ← convert_to_docx E conv out; reply
          else mret (error_body "Unsupported format", 400))
         (fun e => mret (error_body ("Conversion failed: " ++ str e), 500)))
      s.
Proof.
  intros Hname Hfmt Hn Hf Hsrc Him conv out_name out reply.
  destruct filename as [| c1 f]; [contradiction |].
  destruct fmt as [| c2 g]; [contradiction |].
  set (filename := String c1 f) in *. set (fmt := String c2 g) in *.
  unfold POST_convert, dispatch, convert_image. rewrite Hname, Hfmt.
  cbn [default from_option id]. change (truthy filename) with true.
  change (truthy fmt) with true. cbn [negb orb].
  unfold in_path_of, out_path_of, success_body, conv, out_name, out, reply in *.
  cbv zeta.
  erewrite bind_ok
    by (unfold os.path_exists; rewrite bool_decide_eq_true_2 by eauto;
        reflexivity).
  cbn [negb]. unfold try_except.
  erewrite bind_ok
    by (rewrite ImageConverter_init_run, Hsrc, Him; reflexivity).
  reflexivity.
Qed.

End EncoderFailure.

(** X14.  When the encoder raises in a conversion to JPEG or PNG, the
    request is answered 500 'Conversion failed: ...' with the encoder's
    message.  By then Pillow has opened the output for writing: an output
    that was there from an earlier conversion is left empty, one that was
    not there is not left behind, and no other file changes. *)
Theorem convert_encoder_failure_empties_output (E : Env)
    (request : ConvertRequest) (filename fmt : string) (src : bytes)
    (im : Image) (call : save_call) (e : exn) (s : State) :
  let out := out_path_of filename fmt in
  req_filename request = Some filename ->
  req_format request = Some fmt ->
  filename <> "" ->
  fs s !! in_path_of filename = Some src ->
  Image_open E src = Ok im ->
  mem (upper fmt) ["JPG"; "JPEG"; "PNG"] = true ->
  image_save_call im (if mem (upper fmt) ["JPG"; "JPEG"] then "JPEG" else "PNG")
    = Ok call ->
  encode E call = Raise e ->
  exists s',
    POST_convert E request s =
      (error_body ("Conversion failed: " ++ str e), 500, s') /\
    fs s' !! out = (fun _ => []) <$> fs s !! out /\
    forall q, q <> out -> fs s' !! q = fs s !! q.
Proof.
  intros out Hname Hfmt Hn Hsrc Him Hmem Hcall Henc.
  assert (Hf : fmt <> "") by (intros ->; discriminate Hmem).
  rewrite (convert_image_opened E request filename fmt src im s
             Hname Hfmt Hn Hf Hsrc Him).
  cbv zeta. fold out.
  set (conv := mkConverter (in_path_of filename) im).
  destruct (mem (upper fmt) ["JPG"; "JPEG"]) eqn:Hjpeg.
  - destruct (convert_to_image_raise E conv out "JPEG" call e s Hcall Henc)
      as (s' & Hrun & _ & Hout & Hrest).
    exists s'. split; [| split; assumption].
    unfold dispatch, try_except. now rewrite (bind_raise _ _ _ _ _ Hrun).
  - assert (Hpng : (upper fmt =? "PNG")%string = true).
    { unfold mem in Hmem, Hjpeg. cbn [existsb] in Hmem, Hjpeg.
      destruct (upper fmt =? "JPG")%string; [discriminate Hjpeg |].
      destruct (upper fmt =? "JPEG")%string; [discriminate Hjpeg |].
      now rewrite orb_false_r in Hmem. }
    rewrite Hpng.
    destruct (convert_to_image_raise E conv out "PNG" call e s Hcall Henc)
      as (s' & Hrun & _ & Hout & Hrest).
    exists s'. split; [| split; assumption].
    unfold dispatch, try_except. now rewrite (bind_raise _ _ _ _ _ Hrun).
Qed.

Lemma convert_encoder_failure_empties_output_witness :
  let E := {| Image_open := Demo.toy_open;
              encode := fun _ => Raise (OSError "encoder error");
              svg_tostring := Demo.toy_svg;
              pdf_tobytes := fun _ _ => [];
              docx_tobytes := fun _ _ => [];
              fl := fun x => x |} in
  let s := Demo.state [("uploads/a.png", Demo.stored);
                       ("outputs/a.jpg", Demo.text)] 100 in
  exists s',
    POST_convert E (mkConvert (Some "a.png") (Some "jpg")) s =
      (error_body "Conversion failed: encoder error", 500, s') /\
    fs s' !! "outputs/a.jpg" = Some [].
Proof.
  intros E s.
  destruct (convert_encoder_failure_empties_output E
              (mkConvert (Some "a.png") (Some "jpg")) "a.png" "jpg"
              Demo.stored (mkImage (Some "PNG") "RGB" (200, 100) [] [])
              (mkSave (mkImage (Some "PNG") "RGB" (200, 100) [] []) "JPEG" None)
              (OSError "encoder error") s)
    as (s' & Hrun & Hout & _).
  - reflexivity.
  - reflexivity.
  - discriminate.
  - vm_compute. reflexivity.
  - reflexivity.
  - reflexivity.
  - reflexivity.
  - reflexivity.
  - exists s'. split; [exact Hrun |].
    change (out_path_of "a.png" "jpg") with "outputs/a.jpg" in Hout.
    rewrite Hout. vm_compute. reflexivity.
Defined.

(** X15.  A conversion to SVG, PDF or DOCX whose PNG encoding raises is
    answered 500 'Conversion failed: ...' and changes nothing: unlike a
    failed conversion to JPEG or PNG, it leaves an earlier output as it
    was. *)
Theorem convert_document_failure_writes_nothing (E : Env)
    (request : ConvertRequest) (filename fmt : string) (src : bytes)
    (im : Image) (e : exn) (s : State) :
  req_filename request = Some filename ->
  req_format request = Some fmt ->
  filename <> "" ->
  fs s !! in_path_of filename = Some src ->
  Image_open E src = Ok im ->
  mem (upper fmt) ["SVG"; "PDF"; "DOCX"] = true ->
  png_buffer E im = Raise e ->
  POST_convert E request s =
    (error_body ("Conversion failed: " ++ str e), 500, s).
Proof.
  intros Hname Hfmt Hn Hsrc Him Hmem Hpng.
  assert (Hf : fmt <> "") by (intros ->; discriminate Hmem).
  rewrite (convert_image_opened E request filename fmt src im s
             Hname Hfmt Hn Hf Hsrc Him).
  cbv zeta.
  set (conv := mkConverter (in_path_of filename) im).
  destruct (document_writers_raise E conv (out_path_of filename fmt) e s Hpng)
    as (Hsvg & Hpdf & Hdocx).
  apply mem_true_iff in Hmem.
  destruct Hmem as [Hm | [Hm | [Hm | []]]]; rewrite <- Hm;
    cbn [mem existsb String.eqb Ascii.eqb Bool.eqb orb andb];
    unfold dispatch, try_except;
    [ now rewrite (bind_raise _ _ _ _ _ Hsvg)
    | now rewrite (bind_raise _ _ _ _ _ Hpdf)
    | now rewrite (bind_raise _ _ _ _ _ Hdocx) ].
Qed.

Lemma convert_document_failure_writes_nothing_witness :
  let E := {| Image_open := Demo.toy_open;
              encode := fun _ => Raise (OSError "encoder error");
              svg_tostring := Demo.toy_svg;
              pdf_tobytes := fun _ _ => [];
              docx_tobytes := fun _ _ => [];
              fl := fun x => x |} in
  let s := Demo.state [("uploads/a.png", Demo.stored);
                       ("outputs/a.pdf", Demo.text)] 100 in
  POST_convert E (mkConvert (Some "a.png") (Some "pdf")) s =
    (error_body "Conversion failed: encoder error", 500, s).
Proof.
  intros E s.
  refine (convert_document_failure_writes_nothing E
            (mkConvert (Some "a.png") (Some "pdf")) "a.png" "pdf"
            Demo.stored (mkImage (Some "PNG") "RGB" (200, 100) [] [])
            (OSError "encoder error") s _ _ _ _ _ _ _);
    first [reflexivity | discriminate | (vm_compute; reflexivity)].
Defined.


(** ** Conversions to JPEG and PNG on a full device *)

Section FullDevice.
Context (E : Env).



End FullDevice.



(** ** Cleanup *)

Section Cleanup.
Import Listing.

Context (getctime : string -> Z) (t : Z).

Let old (p : string) : bool := 3600 <? t - getctime p.

Let sweep (folder fname : string) : M unit :=
  let fp := os.path_join folder fname in
  is_file ← isfile fp;
  if (is_file : bool) && (3600 <? t - getctime fp)
  then os.remove fp
  else mret tt.

Lemma sweep_one folder fname s :
  exists s',
    sweep folder fname s = (Ok tt, s') /\ now s' = now s /\
    forall p, fs s' !! p =
              if bool_decide (p = os.path_join folder fname) && old p
              then None else fs s !! p.
Proof.
  unfold sweep. cbv zeta. set (fp := os.path_join folder fname).
  unfold isfile, mbind, M_bind. cbv beta.
  destruct (fs s !! fp) as [b |] eqn:Hfp.
  - rewrite bool_decide_eq_true_2 by eauto. cbn [andb]. fold (old fp).
    destruct (old fp) eqn:Hold.
    + unfold os.remove. rewrite Hfp. eexists. split; [reflexivity |].
      split; [reflexivity |]. intros p. cbn [fs].
      destruct (bool_decide (p = fp)) eqn:Hp.
      * apply bool_decide_eq_true_1 in Hp. subst p. rewrite Hold.
        apply lookup_delete_eq.
      * apply bool_decide_eq_false_1 in Hp. cbn [andb].
        now apply lookup_delete_ne.
    + eexists. split; [reflexivity |]. split; [reflexivity |]. intros p.
      destruct (bool_decide (p = fp)) eqn:Hp; [| reflexivity].
      apply bool_decide_eq_true_1 in Hp. subst p. now rewrite Hold.
  - rewrite bool_decide_eq_false_2 by (intros [? ?]; discriminate).
    eexists. split; [reflexivity |]. split; [reflexivity |]. intros p.
    destruct (bool_decide (p = fp)) eqn:Hp; [| reflexivity].
    apply bool_decide_eq_true_1 in Hp. subst p. now destruct (old fp).
Qed.

Lemma sweep_all folder names s :
  exists s',
    for_each names (sweep folder) s = (Ok tt, s') /\ now s' = now s /\
    forall p, fs s' !! p =
              if bool_decide (p ∈ (os.path_join folder <$> names)) && old p
              then None else fs s !! p.
Proof.
  revert s. induction names as [| x names IH]; intros s.
  - exists s. split; [reflexivity |]. split; [reflexivity |]. intros p.
    rewrite bool_decide_eq_false_2 by apply not_elem_of_nil. reflexivity.
  - destruct (sweep_one folder x s) as (s1 & Hrun1 & Hnow1 & Hfs1).
    destruct (IH s1) as (s2 & Hrun2 & Hnow2 & Hfs2).
    exists s2. split; [| split; [congruence |]].
    + cbn [for_each]. rewrite (bind_ok _ _ _ _ _ Hrun1). exact Hrun2.
    + intros p. rewrite Hfs2, Hfs1. rewrite fmap_cons.
      destruct (bool_decide (p ∈ os.path_join folder <$> names)) eqn:Hin;
        destruct (bool_decide (p = os.path_join folder x)) eqn:Hp;
        destruct (old p) eqn:Hold; cbn [andb];
        try apply bool_decide_eq_true_1 in Hin;
        try apply bool_decide_eq_true_1 in Hp;
        try apply bool_decide_eq_false_1 in Hin;
        try apply bool_decide_eq_false_1 in Hp.
      all: first
        [ rewrite bool_decide_eq_true_2 by (apply elem_of_cons; auto); reflexivity
        | rewrite bool_decide_eq_false_2
            by (intros [? | ?]%elem_of_cons; contradiction); reflexivity ].
Qed.

Lemma sweep_folder folder s :
  exists s',
    (names ← listdir folder; for_each names (sweep folder)) s = (Ok tt, s') /\
    now s' = now s /\
    forall p, fs s' !! p = if child_of folder p && old p then None else fs s !! p.
Proof.
  destruct (listdir_run folder s) as (names & Hlist & Hall & Honly).
  destruct (sweep_all folder names s) as (s' & Hrun & Hnow & Hfs).
  exists s'. split; [| split; [exact Hnow |]].
  - rewrite (bind_ok _ _ _ _ _ Hlist). exact Hrun.
  - intros p. rewrite Hfs.
    destruct (bool_decide (p ∈ os.path_join folder <$> names)) eqn:Hin.
    + apply bool_decide_eq_true_1 in Hin. now rewrite (Honly p Hin).
    + apply bool_decide_eq_false_1 in Hin. cbn [andb].
      destruct (child_of folder p) eqn:Hchild; [| reflexivity].
      destruct (old p); [| reflexivity]. cbn [andb].
      destruct (fs s !! p) as [b |] eqn:Hp; [| reflexivity].
      exfalso. apply Hin. apply Hall; eauto.
Qed.

End Cleanup.

(** What [cleanup_files] does to the files: it always answers, leaves the
    clock alone, and removes exactly the files directly inside the two folders
    that are older than an hour. *)
Lemma cleanup_run getctime s :
  exists s',
    cleanup_files getctime s
    = (Ok (JObj [("message", JStr "Cleanup completed")], 200), s') /\
    now s' = now s /\
    forall p, fs s' !! p
              = if expired getctime (now s) p then None else fs s !! p.
Proof.
  destruct (sweep_folder getctime (now s) UPLOAD_FOLDER s)
    as (s1 & Hrun1 & Hnow1 & Hfs1).
  destruct (sweep_folder getctime (now s) OUTPUT_FOLDER s1)
    as (s2 & Hrun2 & Hnow2 & Hfs2).
  exists s2. split; [| split; [congruence |]].
  - unfold cleanup_files.
    erewrite bind_ok by reflexivity.
    erewrite bind_ok; [reflexivity |].
    cbn [for_each].
    erewrite bind_ok by exact Hrun1.
    erewrite bind_ok by exact Hrun2.
    reflexivity.
  - intros p. rewrite Hfs2, Hfs1. unfold expired.
    destruct (child_of UPLOAD_FOLDER p), (child_of OUTPUT_FOLDER p),
      (3600 <? now s - getctime p); reflexivity.
Qed.

(** X16.  [cleanup_files] always answers 'Cleanup completed', leaves the
    clock alone, and removes exactly the files that lie directly inside the
    upload or the output folder and were created more than 3600 seconds
    before the request: a file aged exactly 3600 seconds, a file in a
    subfolder and a file elsewhere all stay, with their contents. *)
Theorem cleanup_removes_exactly_expired (getctime : string -> Z) (s : State) :
  exists s',
    cleanup_files getctime s
    = (Ok (JObj [("message", JStr "Cleanup completed")], 200), s') /\
    now s' = now s /\
    forall p, fs s' !! p
              = if expired getctime (now s) p then None else fs s !! p.
Proof. apply cleanup_run. Qed.

(** X17.  Cleaning up twice in a row is the same as cleaning up once: the
    second request gets the same answer and finds nothing left to
    remove. *)
Theorem cleanup_twice_changes_nothing (getctime : string -> Z)
    (s s1 : State) (r : result Response) :
  cleanup_files getctime s = (r, s1) ->
  exists s2,
    cleanup_files getctime s1 = (r, s2) /\
    now s2 = now s1 /\ forall p, fs s2 !! p = fs s1 !! p.
Proof.
  intros Hrun.
  destruct (cleanup_run getctime s) as (s1' & Hrun1 & Hnow1 & Hfs1).
  rewrite Hrun in Hrun1. injection Hrun1 as -> <-.
  destruct (cleanup_run getctime s1) as (s2 & Hrun2 & Hnow2 & Hfs2).
  exists s2. split; [exact Hrun2 |]. split; [exact Hnow2 |].
  intros p. rewrite Hfs2, Hnow1, Hfs1.
  now destruct (expired getctime (now s) p).
Qed.

Lemma cleanup_twice_changes_nothing_witness :
  let s := {| fs := list_to_map [("uploads/a.png", Demo.stored);
                                 ("outputs/a.pdf", Demo.text)];
              free := 0; now := 10000 |} in
  let ctime := fun p : string => if String.eqb p "uploads/a.png" then 0 else 9000 in
  exists s2,
    cleanup_files ctime (cleanup_files ctime s).2
    = ((cleanup_files ctime s).1, s2) /\
    now s2 = now (cleanup_files ctime s).2 /\
    forall p, fs s2 !! p = fs (cleanup_files ctime s).2 !! p.
Proof.
  intros s ctime.
  exact (cleanup_twice_changes_nothing ctime s _ _ (surjective_pairing _)).
Defined.






(** ** Compositing onto white: ranges *)

Section CompositeRange.

Lemma BLEND8_white a v :
  is_byte a -> is_byte v -> v <= BLEND8 a 255 v <= 255.
Proof.
  intros Ha Hv.
  pose (ok := fun a v => (v <=? BLEND8 a 255 v) && (BLEND8 a 255 v <=? 255)).
  assert (Hall : forallb (ok a) (map Z.of_nat (seq 0 256)) = true).
  { apply (byte_cases (fun a => forallb (ok a) (map Z.of_nat (seq 0 256))));
      [now vm_compute | exact Ha]. }
  pose proof (byte_cases (ok a) Hall v Hv) as Hok. unfold ok in Hok.
  apply andb_prop in Hok as [H1 H2]. lia.
Qed.

(** The whole composite of an "RGBA" image, pixel by pixel. *)
Lemma image_save_call_rgba_data im :
  wf im -> mode im = "RGBA" ->
  exists bg,
    image_save_call im "JPEG" = Ok (mkSave bg "JPEG" (Some 95)) /\
    mode bg = "RGB" /\ size bg = size im /\
    data bg = map (fun px => blend_pixel [List.last px 0] [255; 255; 255]
                               (firstn 3 px)) (data im).
Proof.
  intros Hwf Hm. unfold image_save_call. rewrite Hm.
  change ("JPEG" =? "JPEG")%string with true.
  change (mem "RGBA" ["RGBA"; "P"]) with true.
  change ("RGBA" =? "RGBA")%string with true. cbn [andb].
  unfold paste. cbn [size PIL.new split_last].
  rewrite !bool_decide_eq_true_2 by reflexivity. cbn [negb].
  eexists. split; [reflexivity |]. cbn [mode size data PIL.new].
  repeat split.
  apply list_eq. intros i.
  rewrite lookup_zip_with. cbn [split_last data].
  rewrite lookup_zip_with, !lookup_map.
  destruct (data im !! i) as [px |] eqn:Hi; [| reflexivity].
  rewrite lookup_replicate_2 by (eapply wf_lookup_lt; eauto).
  unfold rgb_of. rewrite Hm. reflexivity.
Qed.

End CompositeRange.

(** X20.  Compositing an "RGBA" image of 8-bit values for JPEG gives a
    well-formed "RGB" image of the same size whose values are again 8-bit;
    no channel of any pixel gets darker than it was, and a fully opaque
    pixel keeps its colour. *)
Theorem jpeg_composite_in_range (im : Image) :
  wf im -> mode im = "RGBA" ->
  Forall (Forall is_byte) (data im) ->
  exists bg,
    image_save_call im "JPEG" = Ok (mkSave bg "JPEG" (Some 95)) /\
    wf bg /\ mode bg = "RGB" /\ size bg = size im /\
    Forall (Forall is_byte) (data bg) /\
    forall (i : nat) r g b a, data im !! i = Some [r; g; b; a] ->
      exists r' g' b',
        data bg !! i = Some [r'; g'; b'] /\
        r <= r' /\ g <= g' /\ b <= b' /\
        (a = 255 -> r' = r /\ g' = g /\ b' = b).
Proof.
  intros Hwf Hm Hbytes.
  destruct (image_save_call_rgba_data im Hwf Hm) as (bg & Hcall & Hbm & Hsz & Hdata).
  assert (Hpx : forall px, px ∈ data im ->
            exists r g b a, px = [r; g; b; a] /\
              is_byte r /\ is_byte g /\ is_byte b /\ is_byte a).
  { intros px Hin.
    destruct Hwf as (_ & _ & _ & Hlen).
    rewrite Forall_forall in Hlen, Hbytes.
    pose proof (Hlen px Hin) as Hl. rewrite Hm in Hl.
    pose proof (Hbytes px Hin) as Hb.
    destruct px as [| r [| g [| b [| a [| ? ?]]]]]; try discriminate Hl.
    exists r, g, b, a. split; [reflexivity |].
    repeat match goal with
           | H : Forall _ (_ :: _) |- _ => apply Forall_cons in H as [? H]
           end.
    auto. }
  exists bg. split; [exact Hcall |].
  split; [| split; [exact Hbm | split; [exact Hsz | split]]].
  - destruct Hwf as (Hw & Hh & Hlen & _). unfold wf. rewrite Hsz, Hbm, Hdata.
    split; [exact Hw |]. split; [exact Hh |]. split.
    + now rewrite length_map.
    + apply Forall_forall. intros px' Hin'.
      apply list_elem_of_fmap in Hin' as (px & -> & Hin).
      destruct (Hpx px Hin) as (r & g & b & a & -> & _). reflexivity.
  - rewrite Hdata. apply Forall_forall. intros px' Hin'.
    apply list_elem_of_fmap in Hin' as (px & -> & Hin).
    destruct (Hpx px Hin) as (r & g & b & a & -> & Hr & Hg & Hb & Ha).
    cbn.
    pose proof (BLEND8_white a r Ha Hr). pose proof (BLEND8_white a g Ha Hg).
    pose proof (BLEND8_white a b Ha Hb).
    repeat constructor; unfold is_byte in *; lia.
  - intros i r g b a Hi. rewrite Hdata, lookup_map, Hi.
    destruct (Hpx [r; g; b; a]) as (r0 & g0 & b0 & a0 & Heq & Hr & Hg & Hb & Ha).
    { eapply list_elem_of_lookup_2; eauto. }
    injection Heq as <- <- <- <-.
    exists (BLEND8 a 255 r), (BLEND8 a 255 g), (BLEND8 a 255 b).
    split; [reflexivity |].
    pose proof (BLEND8_white a r Ha Hr). pose proof (BLEND8_white a g Ha Hg).
    pose proof (BLEND8_white a b Ha Hb).
    repeat (split; [lia |]).
    intros ->. now rewrite !BLEND8_255 by assumption.
Qed.

Lemma jpeg_composite_in_range_witness :
  exists bg,
    image_save_call Sample.rgba_image "JPEG" = Ok (mkSave bg "JPEG" (Some 95)) /\
    wf bg /\ Forall (Forall is_byte) (data bg).
Proof.
  destruct (jpeg_composite_in_range Sample.rgba_image)
    as (bg & Hc & Hwf & _ & _ & Hb & _).
  - unfold wf. cbn. repeat split; try lia. repeat constructor.
  - reflexivity.
  - unfold is_byte. cbn. repeat constructor; lia.
  - exists bg. auto.
Defined.


(** ** The picture of the document: its box *)

Section DocxBox.
Context (E : Env) {R : Rounding (fl E)}.
Local Open Scope Q_scope.

(** A side computed from a ratio of at most 1 is at most 6 inches. *)
Lemma Inches_ratio_box (a b : Z) :
  (0 < a)%Z -> (a <= b)%Z ->
  (0 <= Inches E (fmul E (fl E (inject_Z a / inject_Z b)) 6) <= 5486400)%Z.
Proof.
  intros Ha Hab.
  assert (Hb : 0 < inject_Z b).
  { change 0 with (inject_Z 0). rewrite <- Zlt_Qlt. lia. }
  assert (Ht0 : 0 <= inject_Z a / inject_Z b).
  { apply Qle_shift_div_l; [exact Hb |]. rewrite Qmult_0_l.
    change 0 with (inject_Z 0). rewrite <- Zle_Qle. lia. }
  assert (Ht1 : inject_Z a / inject_Z b <= 1).
  { apply Qle_shift_div_r; [exact Hb |]. rewrite Qmult_1_l.
    rewrite <- Zle_Qle. exact Hab. }
  destruct (Inches_ratio_bounds E _ Ht0) as (_ & Hhi & Hlo).
  set (v := Inches E (fmul E (fl E (inject_Z a / inject_Z b)) 6)) in *.
  split.
  - rewrite Zle_Qle. exact Hlo.
  - assert (Hk : 0 <= (1 + u) * (1 + u) * (1 + u)) by now vm_compute.
    assert (Hlt : inject_Z v < inject_Z 5486401).
    { eapply Qle_lt_trans; [exact Hhi |].
      apply Qle_lt_trans with (1 * 6 * 914400 * ((1 + u) * (1 + u) * (1 + u))).
      - apply Qmult_le_compat_r; [| exact Hk].
        repeat (apply Qmult_le_compat_r; [| now vm_compute]). exact Ht1.
      - now vm_compute. }
    rewrite <- Zlt_Qlt in Hlt. lia.
Qed.

(** Equal sides give the ratio 1 and a side of exactly 6 inches. *)
Lemma Inches_ratio_square (a : Z) :
  (0 < a)%Z ->
  Inches E (fmul E (fl E (inject_Z a / inject_Z a)) 6) = 5486400%Z.
Proof.
  intros Ha.
  assert (Ha0 : ~ inject_Z a == 0).
  { change 0 with (inject_Z 0). rewrite inject_Z_injective. lia. }
  assert (H1 : fl E (inject_Z a / inject_Z a) == inject_Z 1).
  { assert (He : inject_Z a / inject_Z a == inject_Z 1).
    { unfold Qdiv. now rewrite Qmult_inv_r. }
    rewrite He. apply fl_int; [exact R | now vm_compute]. }
  unfold Inches, fmul. apply py_int_exact; [lia |].
  assert (H6 : fl E (fl E (inject_Z a / inject_Z a) * 6) == inject_Z 6).
  { rewrite H1.
    assert (He : inject_Z 1 * 6 == inject_Z 6) by reflexivity.
    rewrite He. apply fl_int; [exact R | now vm_compute]. }
  rewrite H6, <- inject_Z_mult. apply fl_int; [exact R | now vm_compute].
Qed.

End DocxBox.

(** X21.  The picture of the document always fits a square of 6 inches: for
    every positive width and height both sides are between 0 and 5486400 EMU
    and the longer one is exactly 5486400 EMU; a square image is shown 6 in
    by 6 in. *)
Theorem docx_picture_fits_six_inches (E : Env) (im : Image) (png : bytes)
    (w h : Z) :
  Rounding (fl E) ->
  size im = (w, h) -> 0 < w -> 0 < h ->
  png_buffer E im = Ok png ->
  exists width height,
    docx_document E im =
      Ok (docx.mkDocument
            [docx.Heading "Converted Image" 0;
             docx.Paragraph [[docx.Picture png width height]]]) /\
    0 <= width <= 5486400 /\ 0 <= height <= 5486400 /\
    Z.max width height = 5486400 /\
    (w = h -> width = 5486400 /\ height = 5486400).
Proof.
  intros R Hsize Hw Hh Hpng.
  assert (Hsix : Inches E 6 = 5486400).
  { apply (Inches_whole E 6); [lia | now vm_compute]. }
  eexists _, _. split; [exact (docx_document_run E im png w h Hsize Hw Hh Hpng) |].
  destruct (h <? w) eqn:Hcmp.
  - apply Z.ltb_lt in Hcmp.
    pose proof (Inches_ratio_box E h w Hh ltac:(lia)) as Hbox.
    rewrite Hsix. repeat split; try lia.
  - apply Z.ltb_ge in Hcmp.
    pose proof (Inches_ratio_box E w h Hw Hcmp) as Hbox.
    rewrite Hsix. repeat split; try lia.
    subst h. apply (Inches_ratio_square E w Hw).
Qed.

Lemma docx_picture_fits_six_inches_witness :
  exists width height,
    docx_document double_env Demo.picture =
      Ok (docx.mkDocument
            [docx.Heading "Converted Image" 0;
             docx.Paragraph [[docx.Picture Demo.stored width height]]]) /\
    0 <= width <= 5486400 /\ 0 <= height <= 5486400 /\
    Z.max width height = 5486400.
Proof.
  destruct (docx_picture_fits_six_inches double_env Demo.picture Demo.stored
              200 100 double_rounding eq_refl eq_refl eq_refl eq_refl)
    as (width & height & Hdoc & Hwd & Hht & Hmax & _).
  exists width, height. auto.
Defined.
